(** * Reality-capture job script: upload, tracking and output collection

    Shallow embedding of [src/python/jobs/context_capture_job.py].

    The script talks to three collaborators of the [reality_apis] package
    (the data-transfer client, the ContextCapture service and the reference
    table).  Their calls, the [print]s and the [time.sleep]s are recorded as
    a trace of events; [exit(n)] ends a run with the outcome [Exited n]. *)

From Stdlib Require Import ZArith Ascii.
From stdpp Require Import gmap strings list.

Local Open Scope Z_scope.
Local Open Scope string_scope.
Local Open Scope list_scope.

(** ** Values shared with [reality_apis] *)

(** Modelled from the spec: the class [ReturnValue] of [reality_apis.utils]
    is not part of the sources.  The script reads its two attributes
    [value] and [error] and asks [is_error()]; an empty error text means
    success. *)
Record ReturnValue (T : Type) := mkReturnValue { value : T; error : string }.
Arguments mkReturnValue {T} _ _.
Arguments value {T} _.
Arguments error {T} _.

Definition is_error {T} (r : ReturnValue T) : bool :=
  bool_decide (error r ≠ "").

Definition succeed {T} (v : T) : ReturnValue T := mkReturnValue v "".

(** Modelled from the spec: the enumeration [JobState] of
    [reality_apis.utils] is not part of the sources.  It has the seven
    members the script names; [OtherState] stands for every further member
    the enumeration declares. *)
Inductive JobState :=
| SUCCESS | Completed | Over
| ACTIVE | Running
| CANCELLED
| FAILED
| OtherState (name : string).

#[global] Instance JobState_eq_dec : EqDecision JobState.
Proof. solve_decision. Defined.

(** The snapshot returned by [get_job_progress]: the script reads
    [state], [progress] and [step]. *)
Record JobProgress := mkJobProgress {
  state : JobState;
  progress : Z;
  step : string
}.

Inductive RealityDataType := CCImageCollection | CCOrientations.

(** ** Events and runs *)

(** One constructor per [print] statement of the modelled functions; the
    arguments are the values interpolated into the printed line. *)
Inductive message :=
| LoadingPreexistentReferences
| ErrorLoadingReferences (err : string)
| NoReferenceToImageCollections
| NoReferenceToOrientations
| ErrorInUpload (err : string)
| ErrorAddingReference (shown : string)
| ErrorSavingReferences (err : string)
| CheckedDataUpload
| SettingsCreated
| ErrorGettingProgress (err : string)
| Progress (percent : Z) (current_step : string)
| JobCancelled
| JobFailed
| JobDone
| RetrievingOutputsIds
| ErrorGettingProperties (err : string)
| DownloadingOutputs
| ErrorDownloading (output_type : string) (err : string)
| Downloaded (output_type : string) (ret : ReturnValue bool)
| DownloadsCompleted.

Inductive event :=
| Printed (m : message)
| IsFile (path : string)
| LoadReferences (path : string)
| UploadRealityData (local name : string) (ty : RealityDataType)
    (project_id : string)
| UploadCCOrientation (local name project_id : string)
| AddReference (local cloud_id : string)
| Save (path : string)
| GetJobProgress (job_id : string)
| Sleep (seconds : Z)
| GetJobProperties (job_id : string)
| DownloadRealityData (data_id path project_id : string).

#[global] Instance RealityDataType_eq_dec : EqDecision RealityDataType.
Proof. solve_decision. Defined.
#[global] Instance ReturnValue_eq_dec {T} `{EqDecision T} :
  EqDecision (ReturnValue T).
Proof. solve_decision. Defined.
#[global] Instance message_eq_dec : EqDecision message.
Proof. solve_decision. Defined.
#[global] Instance event_eq_dec : EqDecision event.
Proof. solve_decision. Defined.

(** How a run ends: the function returns, the process leaves through
    [exit(code)], or the run is still waiting for an answer that the
    scripted collaborator does not give any more. *)
Inductive Outcome (A : Type) :=
| Returned (a : A)
| Exited (code : Z)
| Waiting.
Arguments Returned {A} _.
Arguments Exited {A} _.
Arguments Waiting {A}.

Record Run (S A : Type) := mkRun {
  trace : list event;
  final : S;
  outcome : Outcome A
}.
Arguments mkRun {S A} _ _ _.
Arguments trace {S A} _.
Arguments final {S A} _.
Arguments outcome {S A} _.

(** Programs over a mutable store [S] that log events and may exit. *)
Definition Prog (S A : Type) : Type := S -> Run S A.

Definition ret {S A} (a : A) : Prog S A :=
  fun s => mkRun [] s (Returned a).

(** [prepend evs r]: the run [r] with the events [evs] logged before it. *)
Definition prepend {S A} (evs : list event) (r : Run S A) : Run S A :=
  match r with
  | mkRun tr s o => mkRun (evs ++ tr) s o
  end.

Definition bind {S A B} (m : Prog S A) (k : A -> Prog S B) : Prog S B :=
  fun s =>
    match m s with
    | mkRun tr s' (Returned a) => prepend tr (k a s')
    | mkRun tr s' (Exited code) => mkRun tr s' (Exited code)
    | mkRun tr s' Waiting => mkRun tr s' Waiting
    end.

Definition emit {S} (e : event) : Prog S unit :=
  fun s => mkRun [e] s (Returned tt).

Definition print {S} (m : message) : Prog S unit := emit (Printed m).

Definition exit {S A} (code : Z) : Prog S A :=
  fun s => mkRun [] s (Exited code).

Definition gets {S A} (f : S -> A) : Prog S A :=
  fun s => mkRun [] s (Returned (f s)).

Definition when {S} (b : bool) (m : Prog S unit) : Prog S unit :=
  if b then m else ret tt.

Declare Scope prog_scope.
Delimit Scope prog_scope with prog.
Notation "x <- m ;; k" := (bind m (fun x => k))
  (at level 100, m at next level, right associativity) : prog_scope.
Notation "m ;; k" := (bind m (fun _ => k))
  (at level 100, right associativity) : prog_scope.
Local Open Scope prog_scope.

(** ** Job tracking: [tracking_job_progress] *)

(** What one turn of the [while True] loop decides. *)
Inductive control :=
| Break
| Continue
| Exit (code : Z).

(** The body of the loop from the answer of [get_job_progress] up to, and
    not including, [time.sleep(60)]. *)
Definition poll_body (progress_ret : ReturnValue JobProgress)
  : list event * control :=
  if is_error progress_ret then
    ([Printed (ErrorGettingProgress (error progress_ret))], Exit 1)
  else
    let job_progress := value progress_ret in
    if bool_decide (state job_progress = SUCCESS)
       || bool_decide (state job_progress = Completed)
       || bool_decide (state job_progress = Over)
    then ([], Break)
    else if bool_decide (state job_progress = ACTIVE)
            || bool_decide (state job_progress = Running)
    then ([Printed (Progress (progress job_progress) (step job_progress))],
          Continue)
    else if bool_decide (state job_progress = CANCELLED)
    then ([Printed JobCancelled], Exit 0)
    else if bool_decide (state job_progress = FAILED)
    then ([Printed JobFailed;
           Printed (Progress (progress job_progress) (step job_progress))],
          Exit 1)
    else ([], Continue).

(** The store of a tracking run is the list of answers the service still
    has to give: each [get_job_progress] takes the first one. *)
Definition answers := list (ReturnValue JobProgress).

Fixpoint tracking_job_progress (job_id : string) (service : answers)
  : Run answers unit :=
  match service with
  | [] => mkRun [GetJobProgress job_id] [] Waiting
  | progress_ret :: service' =>
      match poll_body progress_ret with
      | (evs, Break) =>
          mkRun (GetJobProgress job_id :: evs ++ [Printed JobDone])
                service' (Returned tt)
      | (evs, Exit code) =>
          mkRun (GetJobProgress job_id :: evs) service' (Exited code)
      | (evs, Continue) =>
          prepend (GetJobProgress job_id :: evs ++ [Sleep 60])
                  (tracking_job_progress job_id service')
      end
  end.

(** ** Job settings *)

(** [CCJobSettings.Outputs] as the script reads it: the attribute names of
    the object with their values in the order of [__dict__], [None] for an
    output that was not asked for. *)
Abbreviation Outputs := (list (string * option string)).

(** Modelled from the spec: the enumeration [CCJobQuality] of
    [reality_apis.CCS.ccs_utils] is not part of the sources; the script only
    names [MEDIUM]. *)
Inductive CCJobQuality :=
| MEDIUM
| OtherQuality (name : string).

Record CCJobSettings := mkCCJobSettings {
  inputs : list string;
  outputs : Outputs;
  mesh_quality : CCJobQuality
}.

Record CCJobProperties := mkCCJobProperties {
  job_settings : CCJobSettings
}.

(** ** The reference table *)

Abbreviation table := (gmap string string).

(** Modelled from the spec: the class [ReferenceTable] of
    [reality_apis.DataTransfer.references] is not part of the sources.  The
    table maps a local path to at most one cloud id; [has_local_path] is an
    existence check without side effect; [add_reference] fails if the local
    path is already present and inserts otherwise;
    [get_cloud_id_from_local_path] is the lookup. *)
Module ReferenceTable.

Definition has_local_path (refs : table) (local_path : string) : bool :=
  bool_decide (is_Some (refs !! local_path)).

Definition add_reference (refs : table) (local_path cloud_id : string)
  : ReturnValue bool * table :=
  if has_local_path refs local_path
  then (mkReturnValue false "local path already has a reference", refs)
  else (succeed true, <[local_path := cloud_id]> refs).

Definition get_cloud_id_from_local_path (refs : table) (local_path : string)
  : ReturnValue string :=
  match refs !! local_path with
  | Some cloud_id => succeed cloud_id
  | None => mkReturnValue "" "no reference for this local path"
  end.

End ReferenceTable.

(** ** Collaborators *)

(** The answers of what the script calls outside itself.  [load] gives the
    result of [ReferenceTable.load] on a fresh table together with the table
    read; [save] may answer differently on each call, so it is given the
    number of saves made before. *)
Record Collaborators := mkCollaborators {
  isfile : string -> bool;
  load : string -> ReturnValue bool * table;
  save : nat -> string -> table -> ReturnValue bool;
  upload_reality_data :
    string -> string -> RealityDataType -> string -> ReturnValue string;
  upload_ccorientation :
    string -> string -> string -> table -> ReturnValue string;
  download_reality_data : string -> string -> string -> ReturnValue bool;
  get_job_properties : string -> ReturnValue CCJobProperties
}.

(** The store of an upload run: the [references] object and the number of
    [save] calls made so far. *)
Record Store := mkStore {
  references : table;
  saves : nat
}.

Definition fresh : Store := mkStore ∅ 0.

Section Script.

Context (world : Collaborators).

(** *** Calls on the [references] object *)

Definition new_reference_table : Prog Store unit :=
  fun s => mkRun [] (mkStore ∅ (saves s)) (Returned tt).

Definition references_load (path : string) : Prog Store (ReturnValue bool) :=
  fun s =>
    let '(r, loaded) := load world path in
    mkRun [LoadReferences path] (mkStore loaded (saves s)) (Returned r).

Definition references_has_local_path (local_path : string)
  : Prog Store bool :=
  fun s =>
    mkRun [] s
          (Returned (ReferenceTable.has_local_path (references s) local_path)).

Definition references_add_reference (local_path cloud_id : string)
  : Prog Store (ReturnValue bool) :=
  fun s =>
    let '(r, refs) :=
      ReferenceTable.add_reference (references s) local_path cloud_id in
    mkRun [AddReference local_path cloud_id] (mkStore refs (saves s))
          (Returned r).

Definition references_save (path : string) : Prog Store (ReturnValue bool) :=
  fun s =>
    mkRun [Save path] (mkStore (references s) (S (saves s)))
          (Returned (save world (saves s) path (references s))).

(** *** Calls on the data-transfer client *)

Definition call_upload_reality_data
    (local name : string) (ty : RealityDataType) (project_id : string)
  : Prog Store (ReturnValue string) :=
  fun s =>
    mkRun [UploadRealityData local name ty project_id] s
          (Returned (upload_reality_data world local name ty project_id)).

Definition call_upload_ccorientation (local name project_id : string)
  : Prog Store (ReturnValue string) :=
  fun s =>
    mkRun [UploadCCOrientation local name project_id] s
          (Returned
             (upload_ccorientation world local name project_id (references s))).

Definition call_download_reality_data {S}
    (data_id path project_id : string) : Prog S (ReturnValue bool) :=
  fun s =>
    mkRun [DownloadRealityData data_id path project_id] s
          (Returned (download_reality_data world data_id path project_id)).

(** *** Calls on the ContextCapture service *)

Definition call_get_job_properties {S} (job_id : string)
  : Prog S (ReturnValue CCJobProperties) :=
  fun s =>
    mkRun [GetJobProperties job_id] s
          (Returned (get_job_properties world job_id)).

(** [os.path.join] on two components (POSIX). *)
Definition ends_with_slash (s : string) : bool :=
  match reverse (String.list_ascii_of_string s) with
  | c :: _ => bool_decide (c = "/"%char)
  | [] => false
  end.

Definition path_join (a b : string) : string :=
  if bool_decide (a = "") then b
  else if ends_with_slash a then a +:+ b
  else a +:+ "/" +:+ b.

(** *** [upload_data] *)

(** The function is written in the three parts its comments name; each is
    a run of statements of the source, in the order of the source. *)

(** "creating reference table": a fresh table, filled from the reference
    file when there is one. *)
Definition create_reference_table (references_path : string)
  : Prog Store unit :=
  new_reference_table ;;
  emit (IsFile references_path) ;;
  when (isfile world references_path) (
    print LoadingPreexistentReferences ;;
    ret_ <- references_load references_path ;;
    when (is_error ret_) (
      print (ErrorLoadingReferences (error ret_)) ;;
      exit 1)).

(** "upload ccimageCollection" *)
Definition upload_ccimage_collection
    (project_id cc_image_collections cc_image_collections_name : string)
  : Prog Store unit :=
  known <- references_has_local_path cc_image_collections ;;
  when (negb known) (
    print NoReferenceToImageCollections ;;
    ret_ <- call_upload_reality_data cc_image_collections
              cc_image_collections_name CCImageCollection project_id ;;
    when (is_error ret_) (
      print (ErrorInUpload (error ret_)) ;;
      exit 1) ;;
    ret_ <- references_add_reference cc_image_collections (value ret_) ;;
    when (is_error ret_) (
      print (ErrorAddingReference (error ret_)) ;;
      exit 1)).

(** "upload ccorientations" *)
Definition upload_ccorientations
    (project_id cc_orientations cc_orientations_name : string)
  : Prog Store unit :=
  known <- references_has_local_path cc_orientations ;;
  when (negb known) (
    print NoReferenceToOrientations ;;
    ret_ <- call_upload_ccorientation cc_orientations cc_orientations_name
              project_id ;;
    when (is_error ret_) (
      print (ErrorInUpload (error ret_)) ;;
      exit 1) ;;
    ret_ <- references_add_reference cc_orientations (value ret_) ;;
    when (is_error ret_) (
      print (ErrorAddingReference cc_orientations) ;;
      exit 1)).

Definition upload_data
    (project_id cc_image_collections cc_orientations : string)
    (cc_image_collections_name cc_orientations_name output_path : string)
  : Prog Store table :=
  let references_path := path_join output_path "test_references_python.txt" in
  create_reference_table references_path ;;
  upload_ccimage_collection project_id cc_image_collections
    cc_image_collections_name ;;
  _ <- references_save references_path ;;
  upload_ccorientations project_id cc_orientations cc_orientations_name ;;
  ret_ <- references_save references_path ;;
  when (is_error ret_) (
    print (ErrorSavingReferences (error ret_)) ;;
    exit 1) ;;
  print CheckedDataUpload ;;
  gets references.

(** *** [create_job_settings] *)

Definition create_job_settings {S}
    (refs : table) (cc_image_collections cc_orientations : string)
    (outs : Outputs) (quality : CCJobQuality)
  : Prog S CCJobSettings :=
  let settings :=
    mkCCJobSettings
      [ value (ReferenceTable.get_cloud_id_from_local_path
                 refs cc_image_collections);
        value (ReferenceTable.get_cloud_id_from_local_path
                 refs cc_orientations) ]
      outs quality in
  print SettingsCreated ;;
  ret settings.

(** *** [download_outputs] *)

Fixpoint for_each {S A} (l : list A) (body : A -> Prog S unit)
  : Prog S unit :=
  match l with
  | [] => ret tt
  | x :: l' => body x ;; for_each l' body
  end.

Definition download_outputs {S} (project_id job_id output_path : string)
  : Prog S unit :=
  print RetrievingOutputsIds ;;
  ret_ <- call_get_job_properties job_id ;;
  when (is_error ret_) (
    print (ErrorGettingProperties (error ret_)) ;;
    exit 1) ;;
  let final_settings := job_settings (value ret_) in
  print DownloadingOutputs ;;
  let output_types :=
    filter (fun kv => is_Some (snd kv)) (outputs final_settings) in
  for_each output_types (fun kv =>
    let output_type := fst kv in
    match snd kv with
    | Some output_id =>
        ret_ <- call_download_reality_data output_id output_path project_id ;;
        when (is_error ret_) (
          print (ErrorDownloading output_type (error ret_))) ;;
        print (Downloaded output_type ret_)
    | None => ret tt
    end) ;;
  print DownloadsCompleted.

End Script.

(** ** Reading a trace *)

Definition is_query (e : event) : bool :=
  match e with GetJobProgress _ => true | _ => false end.

Definition is_observation (e : event) : bool :=
  match e with Printed (Progress _ _) => true | _ => false end.

Definition is_sleep (e : event) : bool :=
  match e with Sleep _ => true | _ => false end.

Definition is_printed (e : event) : bool :=
  match e with Printed _ => true | _ => false end.

Definition is_add_reference (e : event) : bool :=
  match e with AddReference _ _ => true | _ => false end.

(** A call of [add_reference] for the local path [r]. *)
Definition is_add_reference_of (r : string) (e : event) : bool :=
  match e with
  | AddReference local _ => bool_decide (local = r)
  | _ => false
  end.

(** A call of one of the two upload functions for the local path [r]. *)
Definition is_upload_of (r : string) (e : event) : bool :=
  match e with
  | UploadRealityData local _ _ _ => bool_decide (local = r)
  | UploadCCOrientation local _ _ => bool_decide (local = r)
  | _ => false
  end.

Fixpoint count (p : event -> bool) (tr : list event) : nat :=
  match tr with
  | [] => O
  | e :: tr' => if p e then S (count p tr') else count p tr'
  end.

Definition queries (tr : list event) : nat := count is_query tr.
Definition observations (tr : list event) : nat := count is_observation tr.

(** The data ids for which a download was attempted, in order. *)
Fixpoint downloads (tr : list event) : list string :=
  match tr with
  | [] => []
  | DownloadRealityData data_id _ _ :: tr' => data_id :: downloads tr'
  | _ :: tr' => downloads tr'
  end.

(** The message printed when a [save] fails. *)
Definition reports_save_error (e : event) : bool :=
  match e with Printed (ErrorSavingReferences _) => true | _ => false end.

(** ** The states as the specification groups them *)

Definition running_state (st : JobState) : bool :=
  match st with ACTIVE | Running => true | _ => false end.

Definition terminal_state (st : JobState) : bool :=
  match st with
  | SUCCESS | Completed | Over | CANCELLED | FAILED => true
  | _ => false
  end.

Definition handled_state (st : JobState) : bool :=
  running_state st || terminal_state st.

(** A successful answer of [get_job_progress] carrying a snapshot. *)
Definition snapshot (st : JobState) (percent : Z) (current_step : string)
  : ReturnValue JobProgress :=
  succeed (mkJobProgress st percent current_step).

Definition is_running (a : ReturnValue JobProgress) : bool :=
  negb (is_error a) && running_state (state (value a)).

Definition is_terminal (a : ReturnValue JobProgress) : bool :=
  negb (is_error a) && terminal_state (state (value a)).

Definition is_unhandled (a : ReturnValue JobProgress) : bool :=
  negb (is_error a) && negb (handled_state (state (value a))).

(** An answer after which the loop sleeps and asks again. *)
Definition keeps_polling (a : ReturnValue JobProgress) : bool :=
  is_running a || is_unhandled a.

(** The events of the turns of the loop that consume [before], each one
    ending in [time.sleep(60)]. *)
Definition turns (job_id : string) (before : answers) : list event :=
  flat_map (fun a => GetJobProgress job_id :: fst (poll_body a) ++ [Sleep 60])
           before.

(** The table [upload_data] works on once it is through its loading part
    (the lines before the first upload): the table read from the reference
    file, the empty table when there is no such file, and [None] when the
    script exits because loading failed. *)
Definition loaded_references (world : Collaborators) (output_path : string)
  : option table :=
  let references_path := path_join output_path "test_references_python.txt" in
  if isfile world references_path then
    if is_error (fst (load world references_path)) then None
    else Some (snd (load world references_path))
  else Some ∅.

(** The world [world] in which the [n]-th call of [save] answers
    [answer] instead. *)
Definition with_save_answer (world : Collaborators) (n : nat)
    (answer : ReturnValue bool) : Collaborators :=
  mkCollaborators
    (isfile world)
    (load world)
    (fun k path refs =>
       if bool_decide (k = n) then answer else save world k path refs)
    (upload_reality_data world)
    (upload_ccorientation world)
    (download_reality_data world)
    (get_job_properties world).

(** ** Sample worlds *)

(** Job properties that declare three outputs, the second without an id. *)
Definition sample_properties : ReturnValue CCJobProperties :=
  succeed
    (mkCCJobProperties
       (mkCCJobSettings []
          [("A", Some "id1"); ("B", None); ("C", Some "id3")] MEDIUM)).

(** The reference file exists and knows the image collection; both uploads
    would succeed; the first [save] fails and the later ones succeed. *)
Definition world_with_references : Collaborators :=
  mkCollaborators
    (fun _ => true)
    (fun _ => (succeed true, {[ "imgs" := "cloud-1" ]}))
    (fun n _ _ =>
       match n with
       | O => mkReturnValue false "disk full"
       | _ => succeed true
       end)
    (fun _ _ _ _ => succeed "cloud-new")
    (fun _ _ _ _ => succeed "cloud-ori")
    (fun data_id _ _ =>
       if bool_decide (data_id = "id1") then mkReturnValue false "404"
       else succeed true)
    (fun _ => sample_properties).

(** There is no reference file; the image collection uploads, the
    orientations do not. *)
Definition world_failing_orientations : Collaborators :=
  mkCollaborators
    (fun _ => false)
    (fun _ => (succeed true, ∅))
    (fun _ _ _ => succeed true)
    (fun _ _ _ _ => succeed "cloud-new")
    (fun _ _ _ _ => mkReturnValue "" "connection lost")
    (fun _ _ _ => succeed true)
    (fun _ => sample_properties).

(** ** More ways to read a run of the tracking loop *)

(** The answers on which the loop stops, by the branch that stops it. *)
Definition is_success (a : ReturnValue JobProgress) : bool :=
  negb (is_error a)
  && match state (value a) with
     | SUCCESS | Completed | Over => true
     | _ => false
     end.

Definition is_cancelled (a : ReturnValue JobProgress) : bool :=
  negb (is_error a) && bool_decide (state (value a) = CANCELLED).

Definition is_failed (a : ReturnValue JobProgress) : bool :=
  negb (is_error a) && bool_decide (state (value a) = FAILED).


(** The seconds slept in a trace. *)
Fixpoint slept (tr : list event) : Z :=
  match tr with
  | [] => 0
  | Sleep seconds :: tr' => seconds + slept tr'
  | _ :: tr' => slept tr'
  end.

(** The job ids asked for in a trace, in order. *)
Fixpoint polled (tr : list event) : list string :=
  match tr with
  | [] => []
  | GetJobProgress job_id :: tr' => job_id :: polled tr'
  | _ :: tr' => polled tr'
  end.

(** The calls of a trace, in order: its events without the lines it
    prints. *)
Definition calls (tr : list event) : list event :=
  List.filter (fun e => negb (is_printed e)) tr.

(** ** More ways to read a run of [upload_data] and [download_outputs] *)

Definition is_orientation_upload (e : event) : bool :=
  match e with UploadCCOrientation _ _ _ => true | _ => false end.

Definition is_collection_upload (e : event) : bool :=
  match e with UploadRealityData _ _ _ _ => true | _ => false end.

Definition is_save (e : event) : bool :=
  match e with Save _ => true | _ => false end.

(** The lines [upload_data] prints before it exits. *)
Definition error_message (m : message) : bool :=
  match m with
  | ErrorLoadingReferences _ | ErrorInUpload _ | ErrorAddingReference _
  | ErrorSavingReferences _ => true
  | _ => false
  end.

(** A run that, if it leaves through [exit], leaves with code 1 right
    after printing an error line, and that is never left waiting. *)
Definition exits_after_report {S A} (r : Run S A) : Prop :=
  match outcome r with
  | Returned _ => True
  | Exited code =>
      code = 1
      ∧ ∃ m, last (trace r) = Some (Printed m) ∧ error_message m = true
  | Waiting => False
  end.

(** The "Downloaded ... output:" lines of a trace: the output type and the
    answer of the download that are printed. *)
Fixpoint download_reports (tr : list event)
  : list (string * ReturnValue bool) :=
  match tr with
  | [] => []
  | Printed (Downloaded output_type ret_) :: tr' =>
      (output_type, ret_) :: download_reports tr'
  | _ :: tr' => download_reports tr'
  end.

(** The "Error while downloading ... output:" lines of a trace. *)
Fixpoint download_errors (tr : list event) : list (string * string) :=
  match tr with
  | [] => []
  | Printed (ErrorDownloading output_type err) :: tr' =>
      (output_type, err) :: download_errors tr'
  | _ :: tr' => download_errors tr'
  end.

(** ** More sample worlds *)

(** The reference file exists and cannot be read. *)
Definition world_unreadable_references : Collaborators :=
  mkCollaborators
    (fun _ => true)
    (fun _ => (mkReturnValue false "bad line", ∅))
    (fun _ _ _ => succeed true)
    (fun _ _ _ _ => succeed "cloud-new")
    (fun _ _ _ _ => succeed "cloud-ori")
    (fun _ _ _ => succeed true)
    (fun _ => mkReturnValue (mkCCJobProperties (mkCCJobSettings [] [] MEDIUM))
                "no such job").

(** The reference file knows both resources; every call succeeds. *)
Definition world_complete_references : Collaborators :=
  mkCollaborators
    (fun _ => true)
    (fun _ => (succeed true, <["ori" := "cloud-2"]> {[ "imgs" := "cloud-1" ]}))
    (fun _ _ _ => succeed true)
    (fun _ _ _ _ => succeed "cloud-new")
    (fun _ _ _ _ => succeed "cloud-ori")
    (fun _ _ _ => succeed true)
    (fun _ => sample_properties).

(** ** The rest of the script: project, workspace, job and [main] *)

(** The values [main] stores in the attributes of a settings object: a
    string, or a member of an enumeration of [reality_apis] given by the
    names of the enumeration and of the member. *)
Inductive pyvalue :=
| PStr (s : string)
| PEnum (enumeration member : string).

(** An [iTwinSettings] object, read as its attributes and their values. *)
Abbreviation iTwinSettings := (list (string * pyvalue)).

(** [obj.name = v] on an object read as the list of its attributes: an
    attribute the object has keeps its place, a new one comes last. *)
Fixpoint set_attr {V} (name : string) (v : V) (obj : list (string * V))
  : list (string * V) :=
  match obj with
  | [] => [(name, v)]
  | (k, w) :: obj' =>
      if bool_decide (k = name) then (k, v) :: obj'
      else (k, w) :: set_attr name v obj'
  end.

(** The enumeration [CCJobType] of [reality_apis.CCS.ccs_utils] is not part
    of the sources; the script only names [FULL]. *)
Inductive CCJobType :=
| FULL
| OtherJobType (name : string).

Record ClientInfo := mkClientInfo {
  client_id : string;
  scope_set : gset string;
  secret : string
}.

Inductive TokenFactory :=
| ServiceTokenFactory (client_info : ClientInfo).

(** [service_token_factory]; [config_client_id] and [config_secret] are the
    two names imported from [config]. *)
Definition service_token_factory (config_client_id config_secret : string)
  : TokenFactory :=
  let scope_set : gset string := {[ "itwin-platform" ]} in
  let client_info := mkClientInfo config_client_id scope_set config_secret in
  ServiceTokenFactory client_info.

(** The objects the script builds with the token factory and hands to its
    functions. *)
Inductive RealityDataTransfer :=
| NewRealityDataTransfer (token_factory : TokenFactory).

Inductive ContextCaptureService :=
| NewContextCaptureService (token_factory : TokenFactory).

(** The answers of everything [main] calls: the collaborators of the
    functions above, and the calls that create the project, the workspace
    and the job. *)
Record Platform := mkPlatform {
  transfer : Collaborators;
  api_create_iTwin : TokenFactory -> iTwinSettings -> ReturnValue string;
  service_create_workspace : string -> string -> ReturnValue string;
  service_create_job :
    CCJobType -> CCJobSettings -> string -> string -> ReturnValue string;
  service_submit_job : string -> ReturnValue bool
}.

(** The store of a run of the whole script: the store of [upload_data] and
    the answers [get_job_progress] still has to give. *)
Record Session := mkSession {
  upload_store : Store;
  job_answers : answers
}.

(** The lines printed by the functions of this part. *)
Inductive script_message :=
| ErrorCreatingITwin (err : string)
| DataTransferInitialized
| ServiceInitialized
| ErrorCreatingWorkspace (err : string)
| WorkspaceCreationResponse (ret_ : ReturnValue string)
| ErrorInSubmit (err : string)
| CreatedJob (ret_ : ReturnValue string)
| JobSubmissionResponse (ret_ : ReturnValue bool)
| JobID (job_id : string).

(** What a run of the whole script does, one action after the other: an
    event of the functions above, a printed line, or one of the further
    calls. *)
Inductive action :=
| Core (e : event)
| Say (m : script_message)
| CreateITwin (token_factory : TokenFactory) (settings : iTwinSettings)
| SetProgressHook (data_transfer : RealityDataTransfer)
| CreateWorkspace (name project_id : string)
| CreateJob (ty : CCJobType) (settings : CCJobSettings)
    (name workspace_id : string)
| SubmitJob (job_id : string).

Module Script.

Record Run (S A : Type) := mk {
  steps : list action;
  session : S;
  result : Outcome A
}.
Arguments mk {S A} _ _ _.
Arguments steps {S A} _.
Arguments session {S A} _.
Arguments result {S A} _.

Definition t (S A : Type) : Type := S -> Run S A.

Definition ret {S A} (a : A) : t S A :=
  fun s => mk [] s (Returned a).

Definition prepend {S A} (sts : list action) (r : Run S A) : Run S A :=
  match r with
  | mk sts' s o => mk (sts ++ sts') s o
  end.

Definition bind {S A B} (m : t S A) (k : A -> t S B) : t S B :=
  fun s =>
    match m s with
    | mk sts s' (Returned a) => prepend sts (k a s')
    | mk sts s' (Exited code) => mk sts s' (Exited code)
    | mk sts s' Waiting => mk sts s' Waiting
    end.

(** A call of a collaborator: the action, and the answer it gives. *)
Definition call {S A} (act : action) (answer : A) : t S A :=
  fun s => mk [act] s (Returned answer).

Definition say {S} (m : script_message) : t S unit :=
  fun s => mk [Say m] s (Returned tt).

Definition exit {S A} (code : Z) : t S A :=
  fun s => mk [] s (Exited code).

Definition when {S} (b : bool) (m : t S unit) : t S unit :=
  if b then m else ret tt.

(** A function of the first part run inside the script, on the part
    [get s] of the store. *)
Definition lift {S T A} (get : S -> T) (set : S -> T -> S) (m : Prog T A)
  : t S A :=
  fun s =>
    match m (get s) with
    | mkRun tr s' o => mk (map Core tr) (set s s') o
    end.

End Script.

Declare Scope script_scope.
Delimit Scope script_scope with script.
Notation "x <- m ;; k" := (Script.bind m (fun x => k))
  (at level 100, m at next level, right associativity) : script_scope.
Notation "m ;; k" := (Script.bind m (fun _ => k))
  (at level 100, right associativity) : script_scope.

(** The three ways [main] runs a function of the first part: on the store
    of [upload_data], on the answers of the service, or on no store. *)
Definition on_uploads {A} (m : Prog Store A) : Script.t Session A :=
  Script.lift upload_store (fun s st => mkSession st (job_answers s)) m.

Definition on_answers {A} (m : Prog answers A) : Script.t Session A :=
  Script.lift job_answers (fun s a => mkSession (upload_store s) a) m.

Definition on_nothing {A} (m : Prog unit A) : Script.t Session A :=
  Script.lift (fun _ => tt) (fun s _ => s) m.

Section WholeScript.

Context (platform : Platform).

(** [create_iTwins] *)
Definition create_iTwins
    (token_factory : TokenFactory) (iTwin_setting : iTwinSettings)
  : Script.t Session string :=
  (response <- Script.call (CreateITwin token_factory iTwin_setting)
                 (api_create_iTwin platform token_factory iTwin_setting) ;;
   Script.when (is_error response) (
     Script.say (ErrorCreatingITwin (error response)) ;;
     Script.exit 1) ;;
   Script.ret (value response))%script.

(** [data_transfer_with_progress_hook] *)
Definition data_transfer_with_progress_hook (token_factory : TokenFactory)
  : Script.t Session RealityDataTransfer :=
  (let data_transfer := NewRealityDataTransfer token_factory in
   Script.call (SetProgressHook data_transfer) tt ;;
   Script.say DataTransferInitialized ;;
   Script.ret data_transfer)%script.

(** [init_cc_service] *)
Definition init_cc_service (token_factory : TokenFactory)
  : Script.t Session ContextCaptureService :=
  (let service_cc := NewContextCaptureService token_factory in
   Script.say ServiceInitialized ;;
   Script.ret service_cc)%script.

(** [create_workspace]; the service object stands for the calls of the
    platform. *)
Definition create_workspace
    (service_cc : ContextCaptureService) (workspace_name project_id : string)
  : Script.t Session string :=
  (ret_ <- Script.call (CreateWorkspace workspace_name project_id)
             (service_create_workspace platform workspace_name project_id) ;;
   Script.when (is_error ret_) (
     Script.say (ErrorCreatingWorkspace (error ret_)) ;;
     Script.exit 1) ;;
   Script.say (WorkspaceCreationResponse ret_) ;;
   Script.ret (value ret_))%script.

(** [create_job] *)
Definition create_job
    (service_cc : ContextCaptureService) (workspace_id job_name : string)
    (settings : CCJobSettings)
  : Script.t Session string :=
  (ret_ <- Script.call (CreateJob FULL settings job_name workspace_id)
             (service_create_job platform FULL settings job_name
                workspace_id) ;;
   Script.when (is_error ret_) (
     Script.say (ErrorInSubmit (error ret_)) ;;
     Script.exit 1) ;;
   Script.say (CreatedJob ret_) ;;
   let job_id := value ret_ in
   ret_ <- Script.call (SubmitJob job_id)
             (service_submit_job platform job_id) ;;
   Script.when (is_error ret_) (
     Script.say (ErrorInSubmit (error ret_)) ;;
     Script.exit 1) ;;
   Script.say (JobSubmissionResponse ret_) ;;
   Script.say (JobID job_id) ;;
   Script.ret job_id)%script.

(** [main].  [config_client_id] and [config_secret] are the names imported
    from [config]; [new_iTwin_settings] and [new_outputs] are the objects
    that [iTwinSettings()] and [CCJobSettings.Outputs()] build, whose
    classes are not part of the sources. *)
Definition main
    (config_client_id config_secret : string)
    (new_iTwin_settings : iTwinSettings) (new_outputs : Outputs)
  : Script.t Session unit :=
  (let cc_image_collections := "path to your image folder" in
   let cc_orientations :=
     "path to the folder where your ccorientation file is" in
   let output_path := "path to the folder where you want to save outputs" in

   let job_name := "Reality Modeling job" in
   let workspace_name := "Reality Modeling workspace" in
   let cc_image_collections_name := "Photos" in
   let cc_orientations_name := "cc orientations" in

   let project_settings := new_iTwin_settings in
   let project_settings :=
     set_attr "name" (PStr "Custom Project Name") project_settings in
   let project_settings :=
     set_attr "iTwin_class" (PEnum "iTwinClass" "THING") project_settings in
   let project_settings :=
     set_attr "iTwin_subclass" (PEnum "iTwinSubClass" "ASSET")
       project_settings in
   let project_settings :=
     set_attr "status" (PEnum "iTwinStatus" "ACTIVE") project_settings in
   let project_settings :=
     set_attr "iTwin_number" (PStr "Unique Id (string) inside org")
       project_settings in
   let project_settings :=
     set_attr "display_name" (PStr "Display name") project_settings in
   let project_settings :=
     set_attr "data_center_location" (PStr "East US") project_settings in
   let project_settings :=
     set_attr "description" (PStr "Optional Description") project_settings in
   let project_settings :=
     set_attr "iTwin_type" (PStr "Optional Custom type name")
       project_settings in
   let project_settings :=
     set_attr "geographic_location" (PStr "Optional Geographic location")
       project_settings in

   let job_outputs := new_outputs in
   let job_outputs :=
     set_attr "cesium_3D_tiles" (Some "3DTiles_name") job_outputs in
   let job_outputs := set_attr "obj" (Some "obj_name") job_outputs in
   let job_outputs := set_attr "las" (Some "las_name") job_outputs in
   let job_outputs :=
     set_attr "orthophoto_DSM" (Some "orthophoto_DSM_name") job_outputs in

   let token_factory :=
     service_token_factory config_client_id config_secret in
   project_id <- create_iTwins token_factory project_settings ;;
   data_transfer <- data_transfer_with_progress_hook token_factory ;;
   service_cc <- init_cc_service token_factory ;;
   references <- on_uploads
                   (upload_data (transfer platform) project_id
                      cc_image_collections cc_orientations
                      cc_image_collections_name cc_orientations_name
                      output_path) ;;
   workspace_id <- create_workspace service_cc workspace_name project_id ;;
   settings <- on_nothing
                 (create_job_settings references cc_image_collections
                    cc_orientations job_outputs MEDIUM) ;;
   job_id <- create_job service_cc workspace_id job_name settings ;;
   on_answers (tracking_job_progress job_id) ;;
   on_nothing
     (download_outputs (transfer platform) project_id job_id output_path)
  )%script.

End WholeScript.

(** ** A sample platform *)

(** Every call succeeds, but for the first [save] and the download of
    ["id1"] (the collaborators are those of [world_with_references]). *)
Definition sample_platform : Platform :=
  mkPlatform
    world_with_references
    (fun _ _ => succeed "project-1")
    (fun _ _ => succeed "workspace-1")
    (fun _ _ _ _ => succeed "job-1")
    (fun _ => succeed true).

(** The service reports the job active once, then over. *)
Definition sample_session : Session :=
  mkSession fresh [snapshot ACTIVE 10 "AT"; snapshot Over 100 "Done"].

(** ** Reading a run of the whole script *)

(** The events [upload_data] can log, and those of the tracking loop. *)
Definition upload_event (e : event) : bool :=
  match e with
  | IsFile _ | LoadReferences _ | UploadRealityData _ _ _ _
  | UploadCCOrientation _ _ _ | AddReference _ _ | Save _ => true
  | Printed m =>
      match m with
      | LoadingPreexistentReferences | ErrorLoadingReferences _
      | NoReferenceToImageCollections | NoReferenceToOrientations
      | ErrorInUpload _ | ErrorAddingReference _ | ErrorSavingReferences _
      | CheckedDataUpload => true
      | _ => false
      end
  | _ => false
  end.

Definition tracking_event (e : event) : bool :=
  match e with
  | GetJobProgress _ | Sleep _ => true
  | Printed m =>
      match m with
      | ErrorGettingProgress _ | Progress _ _ | JobCancelled | JobFailed
      | JobDone => true
      | _ => false
      end
  | _ => false
  end.

(** The actions of output collection: asking for the job properties and
    attempting a download. *)
Definition is_collecting (a : action) : bool :=
  match a with
  | Core (GetJobProperties _) | Core (DownloadRealityData _ _ _) => true
  | _ => false
  end.

(** The values [main] works with, named for the statements below: the three
    paths, the project settings and the job outputs after the assignments
    of [main], and the job settings made from a reference table. *)
Definition main_image_collections : string := "path to your image folder".
Definition main_orientations : string :=
  "path to the folder where your ccorientation file is".
Definition main_output_path : string :=
  "path to the folder where you want to save outputs".

Definition main_project_settings (new_iTwin_settings : iTwinSettings)
  : iTwinSettings :=
  set_attr "geographic_location" (PStr "Optional Geographic location")
    (set_attr "iTwin_type" (PStr "Optional Custom type name")
       (set_attr "description" (PStr "Optional Description")
          (set_attr "data_center_location" (PStr "East US")
             (set_attr "display_name" (PStr "Display name")
                (set_attr "iTwin_number"
                   (PStr "Unique Id (string) inside org")
                   (set_attr "status" (PEnum "iTwinStatus" "ACTIVE")
                      (set_attr "iTwin_subclass"
                         (PEnum "iTwinSubClass" "ASSET")
                         (set_attr "iTwin_class" (PEnum "iTwinClass" "THING")
                            (set_attr "name" (PStr "Custom Project Name")
                               new_iTwin_settings))))))))).

Definition main_job_outputs (new_outputs : Outputs) : Outputs :=
  set_attr "orthophoto_DSM" (Some "orthophoto_DSM_name")
    (set_attr "las" (Some "las_name")
       (set_attr "obj" (Some "obj_name")
          (set_attr "cesium_3D_tiles" (Some "3DTiles_name") new_outputs))).

Definition main_job_settings (refs : table) (new_outputs : Outputs)
  : CCJobSettings :=
  mkCCJobSettings
    [ value (ReferenceTable.get_cloud_id_from_local_path refs
               main_image_collections);
      value (ReferenceTable.get_cloud_id_from_local_path refs
               main_orientations) ]
    (main_job_outputs new_outputs) MEDIUM.

(** The events [download_outputs] can log. *)
Definition download_event (e : event) : bool :=
  match e with
  | GetJobProperties _ | DownloadRealityData _ _ _ => true
  | Printed m =>
      match m with
      | RetrievingOutputsIds | ErrorGettingProperties _ | DownloadingOutputs
      | ErrorDownloading _ _ | Downloaded _ _ | DownloadsCompleted => true
      | _ => false
      end
  | _ => false
  end.

(** The events of the functions of the first part among the actions of a
    run of the whole script. *)
Definition core_events (sts : list action) : list event :=
  omap (fun a => match a with Core e => Some e | _ => None end) sts.

(** The table [upload_data] returns on the sample platform. *)
Definition sample_references : table :=
  <[main_orientations := "cloud-ori"]>
    (<[main_image_collections := "cloud-new"]> {[ "imgs" := "cloud-1" ]}).

(** * Properties *)

(** ** Counting events *)

Lemma count_app (p : event -> bool) (tr1 tr2 : list event) :
  count p (tr1 ++ tr2) = (count p tr1 + count p tr2)%nat.
Proof.
  induction tr1 as [|e tr1 IH]; simpl; [done|].
  destruct (p e); simpl; by rewrite IH.
Qed.

Lemma count_cons (p : event -> bool) (e : event) (tr : list event) :
  count p (e :: tr) = ((if p e then 1 else 0) + count p tr)%nat.
Proof. simpl. by destruct (p e). Qed.

Lemma downloads_app (tr1 tr2 : list event) :
  downloads (tr1 ++ tr2) = downloads tr1 ++ downloads tr2.
Proof.
  induction tr1 as [|e tr1 IH]; simpl; [done|].
  destruct e; simpl; by rewrite ?IH.
Qed.

Lemma trace_prepend {S A} (evs : list event) (r : Run S A) :
  trace (prepend evs r) = evs ++ trace r.
Proof. by destruct r. Qed.

Lemma final_prepend {S A} (evs : list event) (r : Run S A) :
  final (prepend evs r) = final r.
Proof. by destruct r. Qed.

Lemma outcome_prepend {S A} (evs : list event) (r : Run S A) :
  outcome (prepend evs r) = outcome r.
Proof. by destruct r. Qed.

Lemma prepend_nil {S A} (r : Run S A) : prepend [] r = r.
Proof. by destruct r. Qed.

Lemma prepend_prepend {S A} (evs1 evs2 : list event) (r : Run S A) :
  prepend evs1 (prepend evs2 r) = prepend (evs1 ++ evs2) r.
Proof. destruct r. simpl. by rewrite app_assoc. Qed.

(** ** One turn of the tracking loop *)

Lemma poll_body_running (a : ReturnValue JobProgress) :
  is_running a = true ->
  poll_body a
  = ([Printed (Progress (progress (value a)) (step (value a)))], Continue).
Proof.
  unfold is_running, poll_body. intros [He Hs]%andb_true_iff.
  apply negb_true_iff in He. rewrite He. simpl.
  destruct (state (value a)); simpl in Hs; try discriminate; reflexivity.
Qed.

Lemma poll_body_unhandled (a : ReturnValue JobProgress) :
  is_unhandled a = true -> poll_body a = ([], Continue).
Proof.
  unfold is_unhandled, poll_body. intros [He Hs]%andb_true_iff.
  apply negb_true_iff in He. rewrite He. simpl.
  destruct (state (value a)); simpl in Hs; try discriminate; reflexivity.
Qed.

Lemma poll_body_keeps_polling (a : ReturnValue JobProgress) :
  keeps_polling a = true -> snd (poll_body a) = Continue.
Proof.
  unfold keeps_polling. intros [H|H]%orb_true_iff.
  - by rewrite poll_body_running.
  - by rewrite poll_body_unhandled.
Qed.

(** Answers that keep the loop polling are consumed one turn each, and the
    run goes on with what the service answers next. *)
Lemma tracking_keeps_polling (job_id : string) (before later : answers) :
  forallb keeps_polling before = true ->
  tracking_job_progress job_id (before ++ later)
  = prepend (turns job_id before) (tracking_job_progress job_id later).
Proof.
  induction before as [|a before IH]; simpl; intros H.
  - by rewrite prepend_nil.
  - apply andb_true_iff in H as [Ha Hb].
    pose proof (poll_body_keeps_polling a Ha) as Hc.
    destruct (poll_body a) as [evs c]. simpl in Hc. subst c.
    rewrite (IH Hb), prepend_prepend. simpl.
    by rewrite <- !app_assoc.
Qed.

Lemma turns_queries (job_id : string) (before : answers) :
  queries (turns job_id before) = length before.
Proof.
  induction before as [|a before IH]; simpl; [done|].
  unfold queries in *. rewrite count_cons, !count_app, IH. simpl.
  assert (count is_query (fst (poll_body a)) = O) as ->; [|lia].
  unfold poll_body.
  repeat (case_match; simpl; try reflexivity).
Qed.

Lemma turns_sleeps (job_id : string) (before : answers) :
  count is_sleep (turns job_id before) = length before.
Proof.
  induction before as [|a before IH]; simpl; [done|].
  rewrite !count_app, IH. simpl.
  assert (count is_sleep (fst (poll_body a)) = O) as ->; [|lia].
  unfold poll_body.
  repeat (case_match; simpl; try reflexivity).
Qed.

Lemma turns_running_observations (job_id : string) (running : answers) :
  forallb is_running running = true ->
  observations (turns job_id running) = length running.
Proof.
  induction running as [|a running IH]; simpl; [done|].
  intros [Ha Hb]%andb_true_iff.
  unfold observations in *. rewrite count_cons, !count_app, (IH Hb).
  rewrite (poll_body_running a Ha). simpl. lia.
Qed.

Lemma turns_unhandled (job_id : string) (unknown : answers) :
  forallb is_unhandled unknown = true ->
  turns job_id unknown
  = flat_map (fun _ => [GetJobProgress job_id; Sleep 60]) unknown.
Proof.
  induction unknown as [|a unknown IH]; simpl; [done|].
  intros [Ha Hb]%andb_true_iff.
  by rewrite (poll_body_unhandled a Ha), (IH Hb).
Qed.

Lemma forallb_running_keeps_polling (l : answers) :
  forallb is_running l = true -> forallb keeps_polling l = true.
Proof.
  induction l as [|a l IH]; simpl; [done|].
  intros [Ha Hb]%andb_true_iff. unfold keeps_polling at 1.
  by rewrite Ha, (IH Hb).
Qed.

Lemma forallb_unhandled_keeps_polling (l : answers) :
  forallb is_unhandled l = true -> forallb keeps_polling l = true.
Proof.
  induction l as [|a l IH]; simpl; [done|].
  intros [Ha Hb]%andb_true_iff. unfold keeps_polling at 1.
  rewrite Ha, (IH Hb). by rewrite orb_true_r.
Qed.

(** ** Tracking a job *)

(** C2, as the claim words it, fails on a job that ends FAILED: the turn
    that sees FAILED prints the progress line once more, so a script made
    of the single answer FAILED gives one observation where the claim
    counts none. *)
Lemma tracking_failed_observes_once_more :
  ¬ (∀ (job_id : string) (running : answers)
       (last : ReturnValue JobProgress) (later : answers),
        forallb is_running running = true ->
        is_terminal last = true ->
        observations
          (trace (tracking_job_progress job_id (running ++ last :: later)))
        = length running).
Proof.
  intros H.
  specialize (H "job" [] (snapshot FAILED 40 "Reconstruction") []
                eq_refl eq_refl).
  discriminate H.
Qed.

(** C2 (amended): on [n] RUNNING answers followed by one terminal answer
    the loop asks the service [n+1] times, takes none of the answers that
    would come later, and ends with the outcome of the terminal state; it
    prints [n] progress lines when the job ends in success or is cancelled,
    and [n+1] when it ends FAILED (the last one for the failed snapshot). *)
Theorem tracking_running_then_terminal
    (job_id : string) (running : answers)
    (last : ReturnValue JobProgress) (later : answers) :
  forallb is_running running = true ->
  is_terminal last = true ->
  let r := tracking_job_progress job_id (running ++ last :: later) in
  queries (trace r) = S (length running)
  ∧ observations (trace r)
    = (length running
       + (if bool_decide (state (value last) = FAILED) then 1 else 0))%nat
  ∧ final r = later
  ∧ outcome r
    = match state (value last) with
      | CANCELLED => Exited 0
      | FAILED => Exited 1
      | _ => Returned tt
      end.
Proof.
  intros Hrun Hlast r. subst r.
  rewrite (tracking_keeps_polling _ _ _ (forallb_running_keeps_polling _ Hrun)).
  unfold queries, observations. rewrite trace_prepend, !count_app.
  fold (queries (turns job_id running)).
  fold (observations (turns job_id running)).
  rewrite turns_queries, (turns_running_observations _ _ Hrun).
  unfold is_terminal in Hlast. apply andb_true_iff in Hlast as [He Hs].
  apply negb_true_iff in He.
  simpl. unfold poll_body. rewrite He.
  destruct (state (value last)); simpl in Hs; try discriminate; simpl;
    repeat split; lia.
Qed.

Lemma tracking_running_then_terminal_witness :
  let r := tracking_job_progress "job"
             [snapshot ACTIVE 10 "AT"; snapshot Running 55 "Reconstruction";
              snapshot SUCCESS 100 "Done"] in
  queries (trace r) = 3%nat
  ∧ observations (trace r) = 2%nat
  ∧ final r = []
  ∧ outcome r = Returned tt.
Proof.
  apply (tracking_running_then_terminal "job"
           [snapshot ACTIVE 10 "AT"; snapshot Running 55 "Reconstruction"]
           (snapshot SUCCESS 100 "Done") []); reflexivity.
Defined.

(** C3, as the claim words it, fails: the outcome of a run that ends on a
    FAILED snapshot carries neither the percent nor the step.  The run
    leaves with exit code 1 whatever the snapshot holds, so nothing that
    reads the outcome gives the percent and the step back: the snapshots
    (40, "Reconstruction") and (90, "Texturing") end in the same
    outcome. *)
Lemma tracking_failed_outcome_carries_nothing :
  ¬ (∃ carried : Outcome unit -> Z * string,
       ∀ (job_id : string) (before : answers) (p : Z) (s : string)
         (later : answers),
         forallb keeps_polling before = true ->
         carried (outcome (tracking_job_progress job_id
                             (before ++ snapshot FAILED p s :: later)))
         = (p, s)).
Proof.
  intros [carried H].
  pose proof (H "job" [] 40 "Reconstruction" [] eq_refl) as H1.
  pose proof (H "job" [] 90 "Texturing" [] eq_refl) as H2.
  vm_compute in H1, H2. congruence.
Qed.

(** C3: when a poll answers FAILED, the loop prints "Job Failed", then the
    progress line with the percent and step of that snapshot, and leaves
    with exit code 1; no later answer of the service is asked for. *)
Theorem tracking_failed
    (job_id : string) (before : answers) (p : Z) (s : string)
    (later : answers) :
  forallb keeps_polling before = true ->
  let r := tracking_job_progress job_id
             (before ++ snapshot FAILED p s :: later) in
  trace r
  = turns job_id before
    ++ [GetJobProgress job_id; Printed JobFailed; Printed (Progress p s)]
  ∧ outcome r = Exited 1
  ∧ final r = later
  ∧ queries (trace r) = S (length before).
Proof.
  intros Hb r. subst r.
  rewrite (tracking_keeps_polling _ _ _ Hb). simpl.
  repeat split.
  unfold queries. rewrite ?trace_prepend, count_app. simpl.
  fold (queries (turns job_id before)). rewrite turns_queries. lia.
Qed.

Lemma tracking_failed_witness :
  let r := tracking_job_progress "job"
             [snapshot Running 30 "AT"; snapshot FAILED 42 "Reconstruction";
              snapshot SUCCESS 100 "Done"] in
  trace r
  = [GetJobProgress "job"; Printed (Progress 30 "AT"); Sleep 60;
     GetJobProgress "job"; Printed JobFailed;
     Printed (Progress 42 "Reconstruction")]
  ∧ outcome r = Exited 1
  ∧ final r = [snapshot SUCCESS 100 "Done"]
  ∧ queries (trace r) = 2%nat.
Proof.
  apply (tracking_failed "job" [snapshot Running 30 "AT"] 42 "Reconstruction"
           [snapshot SUCCESS 100 "Done"]); reflexivity.
Defined.

(** C4: when a poll answers CANCELLED, the loop prints "Job cancelled" and
    leaves with exit code 0, which is not the exit code 1 of a FAILED job;
    no later answer of the service is asked for. *)
Theorem tracking_cancelled
    (job_id : string) (before : answers) (p : Z) (s : string)
    (later : answers) :
  forallb keeps_polling before = true ->
  let r := tracking_job_progress job_id
             (before ++ snapshot CANCELLED p s :: later) in
  trace r = turns job_id before ++ [GetJobProgress job_id; Printed JobCancelled]
  ∧ outcome r = Exited 0
  ∧ final r = later
  ∧ queries (trace r) = S (length before)
  ∧ outcome r
    ≠ outcome (tracking_job_progress job_id
                 (before ++ snapshot FAILED p s :: later)).
Proof.
  intros Hb r. subst r.
  rewrite !(tracking_keeps_polling _ _ _ Hb). simpl.
  repeat split; [|discriminate].
  unfold queries. rewrite ?trace_prepend, count_app. simpl.
  fold (queries (turns job_id before)). rewrite turns_queries. lia.
Qed.

Lemma tracking_cancelled_witness :
  let r := tracking_job_progress "job"
             [snapshot CANCELLED 12 "AT"; snapshot ACTIVE 13 "AT"] in
  trace r = [GetJobProgress "job"; Printed JobCancelled]
  ∧ outcome r = Exited 0
  ∧ final r = [snapshot ACTIVE 13 "AT"]
  ∧ queries (trace r) = 1%nat
  ∧ outcome r
    ≠ outcome (tracking_job_progress "job"
                 [snapshot FAILED 12 "AT"; snapshot ACTIVE 13 "AT"]).
Proof.
  apply (tracking_cancelled "job" [] 12 "AT" [snapshot ACTIVE 13 "AT"]).
  reflexivity.
Defined.

(** C5: when [get_job_progress] answers with an error, the loop prints it
    and leaves with exit code 1 in that same turn: the failed query is the
    last one, no later answer is asked for, and no sleep follows it. *)
Theorem tracking_query_error
    (job_id : string) (before : answers) (a : ReturnValue JobProgress)
    (later : answers) :
  forallb keeps_polling before = true ->
  is_error a = true ->
  let r := tracking_job_progress job_id (before ++ a :: later) in
  trace r
  = turns job_id before
    ++ [GetJobProgress job_id; Printed (ErrorGettingProgress (error a))]
  ∧ outcome r = Exited 1
  ∧ final r = later
  ∧ queries (trace r) = S (length before)
  ∧ count is_sleep (trace r) = length before.
Proof.
  intros Hb Ha r. subst r.
  rewrite (tracking_keeps_polling _ _ _ Hb). simpl.
  unfold poll_body. rewrite Ha. simpl.
  repeat split.
  - unfold queries. rewrite count_app. simpl.
    fold (queries (turns job_id before)). rewrite turns_queries. lia.
  - rewrite count_app, turns_sleeps. simpl. lia.
Qed.

Lemma tracking_query_error_witness :
  let a := mkReturnValue (mkJobProgress ACTIVE 0 "") "503" in
  let r := tracking_job_progress "job"
             [snapshot ACTIVE 5 "AT"; a; snapshot SUCCESS 100 "Done"] in
  trace r
  = [GetJobProgress "job"; Printed (Progress 5 "AT"); Sleep 60;
     GetJobProgress "job"; Printed (ErrorGettingProgress "503")]
  ∧ outcome r = Exited 1
  ∧ final r = [snapshot SUCCESS 100 "Done"]
  ∧ queries (trace r) = 2%nat
  ∧ count is_sleep (trace r) = 1%nat.
Proof.
  apply (tracking_query_error "job" [snapshot ACTIVE 5 "AT"]
           (mkReturnValue (mkJobProgress ACTIVE 0 "") "503")
           [snapshot SUCCESS 100 "Done"]); reflexivity.
Defined.

(** C6: the raw states are grouped as the specification says.  SUCCESS,
    Completed and Over give the same run (the loop ends, "Job done");
    ACTIVE and Running give the same run (a progress line, a sleep and the
    next poll); CANCELLED and FAILED end the run with exit codes 0 and 1;
    every other state is handled by no branch. *)
Theorem state_normalization
    (job_id : string) (p : Z) (s : string) (later : answers) :
  let run st := tracking_job_progress job_id (snapshot st p s :: later) in
  run SUCCESS
  = mkRun [GetJobProgress job_id; Printed JobDone] later (Returned tt)
  ∧ run Completed = run SUCCESS
  ∧ run Over = run SUCCESS
  ∧ run ACTIVE
    = prepend [GetJobProgress job_id; Printed (Progress p s); Sleep 60]
              (tracking_job_progress job_id later)
  ∧ run Running = run ACTIVE
  ∧ run CANCELLED
    = mkRun [GetJobProgress job_id; Printed JobCancelled] later (Exited 0)
  ∧ run FAILED
    = mkRun [GetJobProgress job_id; Printed JobFailed; Printed (Progress p s)]
            later (Exited 1)
  ∧ outcome (run CANCELLED) ≠ outcome (run FAILED)
  ∧ outcome (run CANCELLED) ≠ outcome (run SUCCESS)
  ∧ outcome (run FAILED) ≠ outcome (run SUCCESS)
  ∧ ∀ name : string,
      run (OtherState name)
      = prepend [GetJobProgress job_id; Sleep 60]
                (tracking_job_progress job_id later).
Proof.
  simpl. repeat split; try reflexivity; discriminate.
Qed.

(** C10: a snapshot whose state is none of the seven handled ones prints
    nothing and ends nothing: the loop sleeps 60 seconds and asks again.
    However long the service keeps answering with such states, the run has
    asked once more than it was answered and is still waiting. *)
Theorem tracking_unhandled_state
    (job_id : string) (unknown later : answers) :
  forallb is_unhandled unknown = true ->
  tracking_job_progress job_id (unknown ++ later)
  = prepend (flat_map (fun _ => [GetJobProgress job_id; Sleep 60]) unknown)
            (tracking_job_progress job_id later)
  ∧ let r := tracking_job_progress job_id unknown in
    outcome r = Waiting
    ∧ count is_printed (trace r) = O
    ∧ queries (trace r) = S (length unknown)
    ∧ count is_sleep (trace r) = length unknown.
Proof.
  intros Hu.
  pose proof (forallb_unhandled_keeps_polling _ Hu) as Hk.
  split.
  - by rewrite (tracking_keeps_polling _ _ _ Hk), (turns_unhandled _ _ Hu).
  - intros r. subst r.
    assert (tracking_job_progress job_id unknown
            = prepend (turns job_id unknown) (tracking_job_progress job_id []))
      as ->.
    { rewrite <- (tracking_keeps_polling _ _ _ Hk). by rewrite app_nil_r. }
    simpl. unfold queries. rewrite !count_app. simpl.
    fold (queries (turns job_id unknown)).
    rewrite turns_queries, turns_sleeps.
    repeat split; try lia.
    rewrite (turns_unhandled _ _ Hu). clear.
    induction unknown as [|a l IH]; simpl; [done|]. by rewrite IH.
Qed.

Lemma tracking_unhandled_state_witness :
  let unknown := [snapshot (OtherState "Pending") 0 "";
                  snapshot (OtherState "unknown") 0 ""] in
  tracking_job_progress "job" (unknown ++ [snapshot Over 100 ""])
  = prepend [GetJobProgress "job"; Sleep 60; GetJobProgress "job"; Sleep 60]
            (tracking_job_progress "job" [snapshot Over 100 ""])
  ∧ let r := tracking_job_progress "job" unknown in
    outcome r = Waiting
    ∧ count is_printed (trace r) = O
    ∧ queries (trace r) = 3%nat
    ∧ count is_sleep (trace r) = 2%nat.
Proof.
  apply (tracking_unhandled_state "job"
           [snapshot (OtherState "Pending") 0 "";
            snapshot (OtherState "unknown") 0 ""]
           [snapshot Over 100 ""]).
  reflexivity.
Defined.

(** ** Sequencing *)

Lemma bind_returned {S A B} (m : Prog S A) (k : A -> Prog S B)
    (s s' : S) (tr : list event) (a : A) :
  m s = mkRun tr s' (Returned a) ->
  bind m k s = prepend tr (k a s').
Proof. unfold bind. by intros ->. Qed.

Lemma bind_exited {S A B} (m : Prog S A) (k : A -> Prog S B)
    (s s' : S) (tr : list event) (code : Z) :
  m s = mkRun tr s' (Exited code) ->
  bind m k s = mkRun tr s' (Exited code).
Proof. unfold bind. by intros ->. Qed.

(** Conditions on the store that each step carries forward, wherever the
    step stops, and a kind of event that no step logs, carry over to a
    sequence of steps. *)
Lemma bind_keeps {S A B} (P Q R : S -> Prop) (p : event -> bool)
    (m : Prog S A) (k : A -> Prog S B) :
  (∀ s, Q s -> R s) ->
  (∀ s, P s -> Q (final (m s)) ∧ count p (trace (m s)) = O) ->
  (∀ a s, Q s -> R (final (k a s)) ∧ count p (trace (k a s)) = O) ->
  ∀ s, P s -> R (final (bind m k s)) ∧ count p (trace (bind m k s)) = O.
Proof.
  intros HQR Hm Hk s Hs. unfold bind.
  destruct (Hm s Hs) as [Hf Ht].
  destruct (m s) as [tr s' [a| |]]; simpl in *; [|by auto..].
  destruct (Hk a s' Hf) as [Hf' Ht'].
  rewrite final_prepend, trace_prepend, count_app. split; [done|lia].
Qed.

(** The same for a sequence whose steps move the store from one condition
    to the next: [Q] holds where the first step returns, [R] where the
    sequence ends. *)
Lemma bind_stages {S A B} (P Q R : S -> Prop)
    (m : Prog S A) (k : A -> Prog S B) :
  (∀ s, P s ->
        match outcome (m s) with
        | Returned _ => Q (final (m s))
        | _ => R (final (m s))
        end) ->
  (∀ a s, Q s -> R (final (k a s))) ->
  ∀ s, P s -> R (final (bind m k s)).
Proof.
  intros Hm Hk s Hs. unfold bind. specialize (Hm s Hs).
  destruct (m s) as [tr s' [a| |]]; simpl in *; [|done..].
  rewrite final_prepend. by apply Hk.
Qed.

(** A sequence of steps returns what its last step returns. *)
Lemma bind_returns {S A B} (Q : S -> B -> Prop)
    (m : Prog S A) (k : A -> Prog S B) (s : S) :
  (∀ a s' b, outcome (k a s') = Returned b -> Q (final (k a s')) b) ->
  ∀ b, outcome (bind m k s) = Returned b -> Q (final (bind m k s)) b.
Proof.
  intros Hk b. unfold bind.
  destruct (m s) as [tr s' [a| |]]; simpl; try discriminate.
  rewrite outcome_prepend, final_prepend. apply Hk.
Qed.

(** ** The reference table *)

Lemma has_local_path_true (refs : table) (local_path : string) :
  ReferenceTable.has_local_path refs local_path = true
  <-> is_Some (refs !! local_path).
Proof. unfold ReferenceTable.has_local_path. apply bool_decide_eq_true. Qed.

Lemma has_local_path_false (refs : table) (local_path : string) :
  ReferenceTable.has_local_path refs local_path = false
  <-> refs !! local_path = None.
Proof.
  unfold ReferenceTable.has_local_path.
  by rewrite bool_decide_eq_false, <- eq_None_not_Some.
Qed.

(** ** The parts of [upload_data] *)

Section Upload.

Context (world : Collaborators).
Context (project_id : string).

Lemma create_reference_table_loaded
    (output_path : string) (refs0 : table) (s : Store) :
  loaded_references world output_path = Some refs0 ->
  let references_path :=
    path_join output_path "test_references_python.txt" in
  create_reference_table world references_path s
  = mkRun (IsFile references_path
           :: if isfile world references_path
              then [Printed LoadingPreexistentReferences; LoadReferences references_path]
              else [])
          (mkStore refs0 (saves s)) (Returned tt).
Proof.
  unfold loaded_references, create_reference_table. intros H.
  cbv zeta in *. set (p := path_join _ _) in *.
  unfold bind at 1. cbn [new_reference_table prepend app].
  unfold bind at 1. cbn [emit prepend app].
  destruct (isfile world p); cbn [when].
  - unfold bind, print, emit, references_load.
    destruct (load world p) as [lr stored]. cbn [fst snd] in H.
    destruct (is_error lr); [discriminate|].
    injection H as ->. reflexivity.
  - injection H as <-. reflexivity.
Qed.

Lemma upload_ccimage_collection_known (imgs name : string) (s : Store) :
  ReferenceTable.has_local_path (references s) imgs = true ->
  upload_ccimage_collection world project_id imgs name s
  = mkRun [] s (Returned tt).
Proof.
  intros H. unfold upload_ccimage_collection, bind, references_has_local_path.
  by rewrite H.
Qed.

Lemma upload_ccimage_collection_fails (imgs name : string) (s : Store) :
  ReferenceTable.has_local_path (references s) imgs = false ->
  is_error (upload_reality_data world imgs name CCImageCollection project_id)
  = true ->
  upload_ccimage_collection world project_id imgs name s
  = mkRun [Printed NoReferenceToImageCollections;
           UploadRealityData imgs name CCImageCollection project_id;
           Printed (ErrorInUpload
                    (error (upload_reality_data world imgs name
                              CCImageCollection project_id)))]
          s (Exited 1).
Proof.
  intros H He.
  unfold upload_ccimage_collection, bind, references_has_local_path.
  rewrite H. cbn [negb when print emit call_upload_reality_data prepend app].
  by rewrite He.
Qed.

Lemma upload_ccimage_collection_uploads (imgs name : string) (s : Store) :
  ReferenceTable.has_local_path (references s) imgs = false ->
  is_error (upload_reality_data world imgs name CCImageCollection project_id)
  = false ->
  upload_ccimage_collection world project_id imgs name s
  = mkRun [Printed NoReferenceToImageCollections;
           UploadRealityData imgs name CCImageCollection project_id;
           AddReference imgs
             (value (upload_reality_data world imgs name
                       CCImageCollection project_id))]
          (mkStore (<[imgs := value (upload_reality_data world imgs name
                                       CCImageCollection project_id)]>
                      (references s))
                   (saves s))
          (Returned tt).
Proof.
  intros H He.
  unfold upload_ccimage_collection, bind, references_has_local_path.
  rewrite H. cbn [negb when print emit call_upload_reality_data prepend app].
  rewrite He. cbn [when ret prepend app].
  unfold references_add_reference, ReferenceTable.add_reference.
  by rewrite H.
Qed.

Lemma upload_ccorientations_known (ori name : string) (s : Store) :
  ReferenceTable.has_local_path (references s) ori = true ->
  upload_ccorientations world project_id ori name s
  = mkRun [] s (Returned tt).
Proof.
  intros H. unfold upload_ccorientations, bind, references_has_local_path.
  by rewrite H.
Qed.

Lemma upload_ccorientations_fails (ori name : string) (s : Store) :
  ReferenceTable.has_local_path (references s) ori = false ->
  is_error (upload_ccorientation world ori name project_id (references s))
  = true ->
  upload_ccorientations world project_id ori name s
  = mkRun [Printed NoReferenceToOrientations;
           UploadCCOrientation ori name project_id;
           Printed (ErrorInUpload
                    (error (upload_ccorientation world ori name project_id
                              (references s))))]
          s (Exited 1).
Proof.
  intros H He.
  unfold upload_ccorientations, bind, references_has_local_path.
  rewrite H. cbn [negb when print emit call_upload_ccorientation prepend app].
  by rewrite He.
Qed.

Lemma upload_ccorientations_uploads (ori name : string) (s : Store) :
  ReferenceTable.has_local_path (references s) ori = false ->
  is_error (upload_ccorientation world ori name project_id (references s))
  = false ->
  upload_ccorientations world project_id ori name s
  = mkRun [Printed NoReferenceToOrientations;
           UploadCCOrientation ori name project_id;
           AddReference ori
             (value (upload_ccorientation world ori name project_id
                       (references s)))]
          (mkStore (<[ori := value (upload_ccorientation world ori name
                                      project_id (references s))]>
                      (references s))
                   (saves s))
          (Returned tt).
Proof.
  intros H He.
  unfold upload_ccorientations, bind, references_has_local_path.
  rewrite H. cbn [negb when print emit call_upload_ccorientation prepend app].
  rewrite He. cbn [when ret prepend app].
  unfold references_add_reference, ReferenceTable.add_reference.
  by rewrite H.
Qed.

End Upload.
Section UploadRuns.

Context (world : Collaborators).
Context (project_id imgs ori imgs_name ori_name output_path : string).

Lemma upload_ccimage_collection_cases (s : Store) :
  let up := upload_reality_data world imgs imgs_name CCImageCollection
              project_id in
  let r := upload_ccimage_collection world project_id imgs imgs_name s in
  (is_Some (references s !! imgs) ∧ r = mkRun [] s (Returned tt))
  ∨ (references s !! imgs = None ∧ is_error up = true
     ∧ r = mkRun [Printed NoReferenceToImageCollections;
                  UploadRealityData imgs imgs_name CCImageCollection
                    project_id;
                  Printed (ErrorInUpload (error up))]
                 s (Exited 1))
  ∨ (references s !! imgs = None ∧ is_error up = false
     ∧ r = mkRun [Printed NoReferenceToImageCollections;
                  UploadRealityData imgs imgs_name CCImageCollection
                    project_id;
                  AddReference imgs (value up)]
                 (mkStore (<[imgs := value up]> (references s)) (saves s))
                 (Returned tt)).
Proof.
  intros up r. subst up r.
  destruct (ReferenceTable.has_local_path (references s) imgs) eqn:H.
  - left. split; [by apply has_local_path_true|].
    by apply upload_ccimage_collection_known.
  - right.
    destruct (is_error (upload_reality_data world imgs imgs_name
                          CCImageCollection project_id)) eqn:He.
    + left. repeat split; [by apply has_local_path_false|].
      by apply upload_ccimage_collection_fails.
    + right. repeat split; [by apply has_local_path_false|].
      by apply upload_ccimage_collection_uploads.
Qed.

Lemma upload_ccorientations_cases (s : Store) :
  let up := upload_ccorientation world ori ori_name project_id
              (references s) in
  let r := upload_ccorientations world project_id ori ori_name s in
  (is_Some (references s !! ori) ∧ r = mkRun [] s (Returned tt))
  ∨ (references s !! ori = None ∧ is_error up = true
     ∧ r = mkRun [Printed NoReferenceToOrientations;
                  UploadCCOrientation ori ori_name project_id;
                  Printed (ErrorInUpload (error up))]
                 s (Exited 1))
  ∨ (references s !! ori = None ∧ is_error up = false
     ∧ r = mkRun [Printed NoReferenceToOrientations;
                  UploadCCOrientation ori ori_name project_id;
                  AddReference ori (value up)]
                 (mkStore (<[ori := value up]> (references s)) (saves s))
                 (Returned tt)).
Proof.
  intros up r. subst up r.
  destruct (ReferenceTable.has_local_path (references s) ori) eqn:H.
  - left. split; [by apply has_local_path_true|].
    by apply upload_ccorientations_known.
  - right.
    destruct (is_error (upload_ccorientation world ori ori_name project_id
                          (references s))) eqn:He.
    + left. repeat split; [by apply has_local_path_false|].
      by apply upload_ccorientations_fails.
    + right. repeat split; [by apply has_local_path_false|].
      by apply upload_ccorientations_uploads.
Qed.

(** What follows the two uploads keeps the table as it is and calls no
    upload. *)
Lemma upload_data_tail_keeps (I : table -> Prop) (p : event -> bool)
    (references_path : string) :
  (∀ path, p (Save path) = false) ->
  (∀ m, p (Printed m) = false) ->
  ∀ s, I (references s) ->
    let r := (ret_ <- references_save world references_path ;;
              when (is_error ret_) (
                print (ErrorSavingReferences (error ret_)) ;;
                exit 1) ;;
              print CheckedDataUpload ;;
              gets references) s in
    I (references (final r)) ∧ count p (trace r) = O.
Proof.
  intros Hsave Hprint s Hs r. subst r.
  unfold bind, references_save, print, emit, exit, gets.
  destruct (is_error _);
    cbn [when ret prepend app final trace references count];
    by rewrite ?Hsave, ?Hprint.
Qed.

Lemma upload_data_returns_references (s0 : Store) (refs : table) :
  let run := upload_data world project_id imgs ori imgs_name ori_name
               output_path s0 in
  outcome run = Returned refs -> refs = references (final run).
Proof.
  intros run. subst run. unfold upload_data. cbv zeta. revert refs.
  do 7 (apply (bind_returns (fun s b => b = references s)); intros ? ?).
  intros refs. unfold gets. cbn [outcome final]. congruence.
Qed.

Lemma upload_data_keeps_known
    (s0 : Store) (refs0 : table) (r cloud_id : string) :
  loaded_references world output_path = Some refs0 ->
  refs0 !! r = Some cloud_id ->
  let run := upload_data world project_id imgs ori imgs_name ori_name
               output_path s0 in
  count (is_upload_of r) (trace run) = O
  ∧ references (final run) !! r = Some cloud_id.
Proof.
  intros Hl Hr run. subst run. unfold upload_data. cbv zeta.
  pose (I := fun s : Store => references s !! r = Some cloud_id).
  apply and_comm.
  apply (bind_keeps (fun _ => True) I I); [done| | |done].
  { intros s _. rewrite (create_reference_table_loaded _ _ _ _ Hl).
    split. { unfold I. cbn [final references]. exact Hr. } cbn [trace]. by destruct (isfile world _). }
  intros _.
  apply (bind_keeps I I I); [done| |].
  { intros s Hs.
    destruct (upload_ccimage_collection_cases s)
      as [[_ ->]|[(Hn&_& ->)|(Hn&_& ->)]];
      [split; [exact Hs|reflexivity]|..];
      unfold I in *; cbn [final references trace count is_upload_of];
      (assert (imgs ≠ r) by congruence);
      rewrite bool_decide_eq_false_2 by done;
      (split; [|reflexivity]); [done|by rewrite lookup_insert_ne]. }
  intros _.
  apply (bind_keeps I I I); [done| |].
  { intros s Hs. split; [exact Hs|reflexivity]. }
  intros _.
  apply (bind_keeps I I I); [done| |].
  { intros s Hs.
    destruct (upload_ccorientations_cases s)
      as [[_ ->]|[(Hn&_& ->)|(Hn&_& ->)]];
      [split; [exact Hs|reflexivity]|..];
      unfold I in *; cbn [final references trace count is_upload_of];
      (assert (ori ≠ r) by congruence);
      rewrite bool_decide_eq_false_2 by done;
      (split; [|reflexivity]); [done|by rewrite lookup_insert_ne]. }
  intros _ s Hs.
  by apply (upload_data_tail_keeps (fun t => t !! r = Some cloud_id)).
Qed.

(** C1: a resource that the loaded reference table already knows is
    never handed to one of the two upload functions; its entry is still
    the stored cloud id when the run ends, and when [upload_data]
    returns, the table it returns gives that id, which is what
    [create_job_settings] puts into the inputs of the job. *)
Theorem upload_data_known_resource
    (s0 : Store) (refs0 : table) (r cloud_id : string) :
  loaded_references world output_path = Some refs0 ->
  refs0 !! r = Some cloud_id ->
  let run := upload_data world project_id imgs ori imgs_name ori_name
               output_path s0 in
  count (is_upload_of r) (trace run) = O
  ∧ references (final run) !! r = Some cloud_id
  ∧ ∀ refs : table,
      outcome run = Returned refs ->
      ReferenceTable.get_cloud_id_from_local_path refs r = succeed cloud_id
      ∧ ∀ (outs : Outputs) (quality : CCJobQuality),
        ∃ settings : CCJobSettings,
          outcome (create_job_settings refs imgs ori outs quality tt)
          = Returned settings
          ∧ (r = imgs -> inputs settings !! O = Some cloud_id)
          ∧ (r = ori -> inputs settings !! 1%nat = Some cloud_id).
Proof.
  intros Hl Hr run.
  destruct (upload_data_keeps_known s0 refs0 r cloud_id Hl Hr) as [Hu Hf].
  fold run in Hu, Hf. split_and!; [exact Hu|exact Hf|].
  intros refs Hret.
  apply upload_data_returns_references in Hret.
  assert (refs !! r = Some cloud_id) as Hrefs by (by rewrite Hret).
  unfold ReferenceTable.get_cloud_id_from_local_path.
  split; [by rewrite Hrefs|].
  intros outs quality. eexists. split; [reflexivity|].
  cbn [inputs]. unfold ReferenceTable.get_cloud_id_from_local_path.
  split; intros <-; rewrite Hrefs; reflexivity.
Qed.

Lemma count_loading (p : event -> bool) (path : string) :
  p (IsFile path) = false ->
  p (Printed LoadingPreexistentReferences) = false ->
  p (LoadReferences path) = false ->
  count p (IsFile path
           :: if isfile world path
              then [Printed LoadingPreexistentReferences; LoadReferences path]
              else [])
  = O.
Proof.
  intros H1 H2 H3. destruct (isfile world path); cbn [count];
    by rewrite ?H1, ?H2, ?H3.
Qed.

(** C7: when an upload fails, the run ends there with exit code 1, no
    [add_reference] is made for the resource and the table is the one the
    upload was attempted with; and whatever the table holds when the run
    ends was loaded from the reference file or is the id answered by a
    successful upload of that resource. *)
Theorem upload_failure_leaves_table (s0 : Store) (refs0 : table) :
  loaded_references world output_path = Some refs0 ->
  let up_imgs :=
    upload_reality_data world imgs imgs_name CCImageCollection project_id in
  let refs1 :=
    if ReferenceTable.has_local_path refs0 imgs then refs0
    else <[imgs := value up_imgs]> refs0 in
  let up_ori := upload_ccorientation world ori ori_name project_id refs1 in
  let run := upload_data world project_id imgs ori imgs_name ori_name
               output_path s0 in
  (refs0 !! imgs = None -> is_error up_imgs = true ->
     outcome run = Exited 1
     ∧ references (final run) = refs0
     ∧ count is_add_reference (trace run) = O)
  ∧ (is_Some (refs0 !! imgs) ∨ is_error up_imgs = false ->
     refs1 !! ori = None -> is_error up_ori = true ->
     outcome run = Exited 1
     ∧ references (final run) = refs1
     ∧ count (is_add_reference_of ori) (trace run) = O)
  ∧ (∀ q c : string,
       references (final run) !! q = Some c ->
       refs0 !! q = Some c
       ∨ (q = imgs ∧ is_error up_imgs = false ∧ value up_imgs = c)
       ∨ (q = ori ∧ is_error up_ori = false ∧ value up_ori = c)).
Proof.
  intros Hl up_imgs refs1 up_ori run.
  pose proof (create_reference_table_loaded world output_path refs0 s0 Hl)
    as Hload.
  cbv zeta in Hload.
  split; [|split].
  - (* the upload of the image collection fails *)
    intros Hn He. subst run. unfold upload_data. cbv zeta.
    rewrite (bind_returned (create_reference_table world _) _ _ _ _ _ Hload).
    rewrite (bind_exited (upload_ccimage_collection world _ _ _) _ _ _ _ _
               (upload_ccimage_collection_fails world project_id imgs
                  imgs_name (mkStore refs0 (saves s0))
                  (proj2 (has_local_path_false _ _) Hn) He)).
    cbn [prepend outcome final references trace].
    repeat split. rewrite count_app, count_loading by reflexivity.
    reflexivity.
  - (* the upload of the orientations fails *)
    intros Himgs Hn He. subst run. unfold upload_data. cbv zeta.
    rewrite (bind_returned (create_reference_table world _) _ _ _ _ _ Hload).
    destruct (upload_ccimage_collection_cases
                (mkStore refs0 (saves s0)))
      as [[Hk Hrun]|[(Hk&Hee&_)|(Hk&_&Hrun)]];
      cbn [references] in Hk.
    + apply has_local_path_true in Hk. subst refs1 up_ori.
      rewrite Hk in *.
      rewrite (bind_returned (upload_ccimage_collection world _ _ _)
                 _ _ _ _ _ Hrun).
      rewrite (bind_returned (references_save world _) _ _ _ _ _ eq_refl).
      rewrite (bind_exited (upload_ccorientations world _ _ _) _ _ _ _ _
                 (upload_ccorientations_fails world project_id ori
                    ori_name (mkStore refs0 (S (saves s0)))
                    (proj2 (has_local_path_false _ _) Hn) He)).
      cbn [prepend outcome final references trace].
      repeat split. rewrite !count_app, count_loading by reflexivity.
      reflexivity.
    + destruct Himgs as [[? Hs]|Hok];
        [congruence|unfold up_imgs in Hok; congruence].
    + apply has_local_path_false in Hk. subst refs1 up_ori.
      rewrite Hk in *. fold up_imgs in Hrun.
      rewrite (bind_returned (upload_ccimage_collection world _ _ _)
                 _ _ _ _ _ Hrun).
      rewrite (bind_returned (references_save world _) _ _ _ _ _ eq_refl).
      rewrite (bind_exited (upload_ccorientations world _ _ _) _ _ _ _ _
                 (upload_ccorientations_fails world project_id ori
                    ori_name
                    (mkStore (<[imgs := value up_imgs]> refs0)
                             (S (saves s0)))
                    (proj2 (has_local_path_false _ _) Hn) He)).
      cbn [prepend outcome final references trace].
      repeat split.
      assert (imgs ≠ ori) as Hne.
      { intros ->. by rewrite lookup_insert_eq in Hn. }
      rewrite !count_app, count_loading by reflexivity.
      cbn [app count is_add_reference_of].
      by rewrite bool_decide_eq_false_2.
  - (* where the entries of the table come from *)
    pose (Rt := fun t : table =>
      ∀ q c : string,
        t !! q = Some c ->
        refs0 !! q = Some c
        ∨ (q = imgs ∧ is_error up_imgs = false ∧ value up_imgs = c)
        ∨ (q = ori ∧ is_error up_ori = false ∧ value up_ori = c)).
    pose (R := fun s : Store => Rt (references s)).
    pose (Q := fun s : Store =>
      references s = refs1
      ∧ (is_Some (refs0 !! imgs) ∨ is_error up_imgs = false)).
    assert (∀ s, Q s -> R s) as HQR.
    { intros s [Hs Hok] q c. rewrite Hs. subst refs1.
      destruct (ReferenceTable.has_local_path refs0 imgs) eqn:Hk;
        [by left|].
      apply has_local_path_false in Hk.
      destruct Hok as [[? Hsome]|Hok]; [congruence|].
      destruct (decide (imgs = q)) as [<-|Hne].
      - rewrite lookup_insert_eq. intros [= <-]. right. by left.
      - rewrite lookup_insert_ne by done. by left. }
    change (R (final run)). subst run. unfold upload_data. cbv zeta.
    apply (bind_stages (fun _ => True) (fun s => references s = refs0) R);
      [| |done].
    { intros s _. by rewrite (create_reference_table_loaded _ _ _ _ Hl). }
    intros _.
    apply (bind_stages _ Q R).
    { intros s Hs.
      destruct (upload_ccimage_collection_cases s)
        as [[Hk ->]|[(Hk&_& ->)|(Hk&Hok& ->)]];
        cbn [outcome final references]; rewrite Hs in *.
      - split; [|by left]. subst refs1.
        by rewrite (proj2 (has_local_path_true _ _) Hk).
      - intros q c Hq. left. by rewrite <- Hs.
      - split; [|by right]. subst refs1.
        by rewrite (proj2 (has_local_path_false _ _) Hk). }
    intros _.
    apply (bind_stages _ Q R).
    { intros s Hs. exact Hs. }
    intros _.
    apply (bind_stages _ R R).
    { intros s Hs. pose proof (HQR s Hs) as HR. destruct Hs as [Hs Hok].
      destruct (upload_ccorientations_cases s)
        as [[Hk ->]|[(Hk&_& ->)|(Hk&Hoks& ->)]];
        cbn [outcome final references]; [done|done|].
      rewrite Hs in *. fold up_ori in Hoks |- *.
      intros q c. cbn [references].
      destruct (decide (ori = q)) as [<-|Hne].
      - rewrite lookup_insert_eq. intros [= <-]. right. by right.
      - rewrite lookup_insert_ne by done. rewrite <- Hs. apply HR. }
    intros _ s Hs.
    by apply (upload_data_tail_keeps Rt (fun _ => false)).
Qed.

End UploadRuns.

(** ** Collecting the outputs *)

Section Download.

Context (world : Collaborators).
Context {S : Type}.
Context (project_id output_path : string).

(** One turn of the loop of [download_outputs] on a declared output. *)
Lemma download_one (output_type output_id : string) (s : S) :
  let ret_ := download_reality_data world output_id output_path project_id in
  (ret_ <- call_download_reality_data world output_id output_path
             project_id ;;
   when (is_error ret_) (
     print (ErrorDownloading output_type (error ret_))) ;;
   print (Downloaded output_type ret_)) s
  = mkRun (DownloadRealityData output_id output_path project_id
           :: (if is_error ret_
               then [Printed (ErrorDownloading output_type (error ret_))]
               else [])
           ++ [Printed (Downloaded output_type ret_)])
          s (Returned tt).
Proof.
  intros ret_. unfold bind, call_download_reality_data. fold ret_.
  by destruct (is_error ret_).
Qed.

(** The loop of [download_outputs] over the declared outputs. *)
Lemma download_loop (outs : Outputs) (s : S) :
  let run :=
    for_each (filter (fun kv => is_Some (snd kv)) outs) (fun kv =>
      let output_type := fst kv in
      match snd kv with
      | Some output_id =>
          ret_ <- call_download_reality_data world output_id output_path
                    project_id ;;
          when (is_error ret_) (
            print (ErrorDownloading output_type (error ret_))) ;;
          print (Downloaded output_type ret_)
      | None => ret tt
      end) s in
  downloads (trace run) = omap snd outs
  ∧ outcome run = Returned tt
  ∧ final run = s
  ∧ ∀ (output_type output_id : string),
      (output_type, Some output_id) ∈ outs ->
      let ret_ :=
        download_reality_data world output_id output_path project_id in
      DownloadRealityData output_id output_path project_id ∈ trace run
      ∧ (is_error ret_ = true ->
         Printed (ErrorDownloading output_type (error ret_)) ∈ trace run).
Proof.
  induction outs as [|[k [id|]] outs IH]; intros run; subst run.
  - cbn. split_and!; [done..|]. by intros k id ?%elem_of_nil.
  - rewrite filter_cons_True by (by eexists).
    cbn [for_each fst snd]. cbv zeta in IH.
    destruct IH as (IHd & IHo & IHf & IHr).
    rewrite (bind_returned _ _ _ _ _ _ (download_one k id s)).
    rewrite trace_prepend, outcome_prepend, final_prepend, downloads_app.
    split_and!; [|done|done|].
    + cbn [downloads app omap list_omap snd]. rewrite downloads_app.
      destruct (is_error _); cbn; by rewrite IHd.
    + intros k' id' [[= -> ->]|H]%elem_of_cons; cbv zeta.
      * split; [apply list_elem_of_here|].
        intros ->. apply list_elem_of_further, list_elem_of_here.
      * destruct (IHr k' id' H) as [H1 H2].
        split; [|intros He; specialize (H2 He)];
          apply elem_of_app; by right.
  - rewrite filter_cons_False by (by intros [? [=]]).
    cbv zeta in IH. destruct IH as (IHd & IHo & IHf & IHr).
    split_and!; [done..|].
    intros k' id' [[=]|H]%elem_of_cons. by apply IHr.
Qed.

(** C8: once the job properties are there, a download is attempted for
    the declared outputs that have an id, each once and in the order
    they are declared, and for no other; a failed download is printed and
    the loop goes on to the end. *)
Theorem download_outputs_attempts (job_id : string) (s : S) :
  let properties_ret := get_job_properties world job_id in
  is_error properties_ret = false ->
  let outs := outputs (job_settings (value properties_ret)) in
  let run := download_outputs world project_id job_id output_path s in
  downloads (trace run) = omap snd outs
  ∧ outcome run = Returned tt
  ∧ ∀ (output_type output_id : string),
      (output_type, Some output_id) ∈ outs ->
      let ret_ :=
        download_reality_data world output_id output_path project_id in
      DownloadRealityData output_id output_path project_id ∈ trace run
      ∧ (is_error ret_ = true ->
         Printed (ErrorDownloading output_type (error ret_)) ∈ trace run).
Proof.
  intros properties_ret He outs run. subst run.
  destruct (download_loop outs s) as (Hd & Ho & Hf & Hr).
  unfold download_outputs, bind, call_get_job_properties, print, emit.
  cbn [prepend app]. fold properties_ret. rewrite He.
  cbn [when ret prepend app].
  fold outs. set (loop := for_each _ _) in *.
  destruct (loop s) as [tr s' o]. cbn [trace outcome final] in *. subst o.
  cbn [prepend trace outcome app].
  split_and!; [|done|].
  - cbn [downloads]. by rewrite downloads_app, Hd, app_nil_r.
  - intros k id Hin. destruct (Hr k id Hin) as [H1 H2]. cbv zeta.
    split; [|intros Herr; specialize (H2 Herr)];
      do 3 apply list_elem_of_further; apply elem_of_app; by left.
Qed.

End Download.

(** ** The first [save] of [upload_data] *)

Section FirstSave.

Context (world : Collaborators).
Context (project_id imgs ori imgs_name ori_name output_path : string).

Lemma bind_same_from {S A B} (P Q : S -> Prop)
    (m : Prog S A) (k k' : A -> Prog S B) :
  (∀ s, P s -> Q (final (m s))) ->
  (∀ a s, Q s -> k a s = k' a s) ->
  ∀ s, P s -> bind m k s = bind m k' s.
Proof.
  intros Hm Hk s Hs. unfold bind. specialize (Hm s Hs).
  destruct (m s) as [tr s' [a| |]]; simpl in *; [|done..].
  by rewrite (Hk a s' Hm).
Qed.

Lemma create_reference_table_saves (references_path : string) (s : Store) :
  saves (final (create_reference_table world references_path s)) = saves s.
Proof.
  unfold create_reference_table, bind, new_reference_table, emit, print,
    references_load.
  cbn [prepend when]. destruct (isfile world references_path); [|done].
  cbn [when prepend]. destruct (load world references_path) as [lr stored].
  by destruct (is_error lr).
Qed.

Lemma upload_ccimage_collection_saves (s : Store) :
  saves (final (upload_ccimage_collection world project_id imgs imgs_name s))
  = saves s.
Proof.
  by destruct (upload_ccimage_collection_cases world project_id imgs
                 imgs_name s) as [[_ ->]|[(_&_& ->)|(_&_& ->)]].
Qed.

Lemma upload_ccorientations_saves (s : Store) :
  saves (final (upload_ccorientations world project_id ori ori_name s))
  = saves s.
Proof.
  by destruct (upload_ccorientations_cases world project_id ori ori_name s)
    as [[_ ->]|[(_&_& ->)|(_&_& ->)]].
Qed.

(** Whatever the first [save] of [upload_data] answers, an error or not,
    the run is the same: the same events, the same table, the same
    outcome.  Nothing of that answer reaches the user. *)
Lemma upload_data_first_save_unused
    (answer : ReturnValue bool) (s0 : Store) :
  upload_data (with_save_answer world (saves s0) answer) project_id imgs ori
    imgs_name ori_name output_path s0
  = upload_data world project_id imgs ori imgs_name ori_name output_path s0.
Proof.
  unfold upload_data. cbv zeta. set (p := path_join _ _).
  change (create_reference_table (with_save_answer world (saves s0) answer))
    with (create_reference_table world).
  change (upload_ccimage_collection
            (with_save_answer world (saves s0) answer))
    with (upload_ccimage_collection world).
  change (upload_ccorientations (with_save_answer world (saves s0) answer))
    with (upload_ccorientations world).
  apply (bind_same_from (fun s => s = s0) (fun s => saves s = saves s0));
    [by intros s ->; apply create_reference_table_saves| |done].
  intros _.
  apply (bind_same_from _ (fun s => saves s = saves s0));
    [by intros s <-; apply upload_ccimage_collection_saves|].
  intros _ s Hs.
  rewrite !(bind_returned (references_save _ p) _ _ _ _ _ eq_refl).
  f_equal.
  apply (bind_same_from (fun s => saves s = S (saves s0))
           (fun s => saves s = S (saves s0)));
    [by intros s' <-; apply upload_ccorientations_saves| |by cbn; rewrite Hs].
  intros _ s' Hs'. unfold bind at 1 3.
  unfold references_save. cbn [save with_save_answer].
  rewrite bool_decide_eq_false_2 by lia. reflexivity.
Qed.

End FirstSave.

(** ** The properties on the sample worlds *)

Lemma upload_data_known_resource_witness :
  let run := upload_data world_with_references "proj" "imgs" "ori"
               "Photos" "cc orientations" "out" fresh in
  count (is_upload_of "imgs") (trace run) = O
  ∧ references (final run) !! "imgs" = Some "cloud-1"
  ∧ ∀ refs : table,
      outcome run = Returned refs ->
      ReferenceTable.get_cloud_id_from_local_path refs "imgs"
      = succeed "cloud-1"
      ∧ ∀ (outs : Outputs) (quality : CCJobQuality),
        ∃ settings : CCJobSettings,
          outcome (create_job_settings refs "imgs" "ori" outs quality tt)
          = Returned settings
          ∧ ("imgs" = "imgs" -> inputs settings !! O = Some "cloud-1")
          ∧ ("imgs" = "ori" -> inputs settings !! 1%nat = Some "cloud-1").
Proof.
  apply (upload_data_known_resource world_with_references "proj" "imgs" "ori"
           "Photos" "cc orientations" "out" fresh {[ "imgs" := "cloud-1" ]});
    reflexivity.
Defined.

Lemma upload_failure_leaves_table_witness :
  let run := upload_data world_failing_orientations "proj" "imgs" "ori"
               "Photos" "cc orientations" "out/" fresh in
  outcome run = Exited 1
  ∧ references (final run) = <["imgs" := "cloud-new"]> ∅
  ∧ count (is_add_reference_of "ori") (trace run) = O.
Proof.
  exact (proj1 (proj2
           (upload_failure_leaves_table world_failing_orientations "proj"
              "imgs" "ori" "Photos" "cc orientations" "out/" fresh ∅
              eq_refl))
           (or_intror eq_refl) eq_refl eq_refl).
Defined.

Lemma download_outputs_attempts_witness :
  let run := download_outputs world_with_references "proj" "job" "out" tt in
  downloads (trace run) = ["id1"; "id3"]
  ∧ outcome run = Returned tt
  ∧ ∀ (output_type output_id : string),
      (output_type, Some output_id)
      ∈ [("A", Some "id1"); ("B", None); ("C", Some "id3")] ->
      let ret_ :=
        download_reality_data world_with_references output_id "out" "proj" in
      DownloadRealityData output_id "out" "proj" ∈ trace run
      ∧ (is_error ret_ = true ->
         Printed (ErrorDownloading output_type (error ret_)) ∈ trace run).
Proof.
  apply (download_outputs_attempts world_with_references "proj" "out"
           "job" tt).
  reflexivity.
Defined.

(** C9 does not hold of the code: the answer of the first [save] of
    [upload_data] is thrown away.  On a world whose first [save] fails,
    the run prints nothing about it and returns as if all were well. *)
Theorem upload_data_drops_first_save_error :
  let run := upload_data world_with_references "proj" "imgs" "ori"
               "Photos" "cc orientations" "out" fresh in
  is_error (save world_with_references O "out/test_references_python.txt"
              {[ "imgs" := "cloud-1" ]}) = true
  ∧ trace run
    = [IsFile "out/test_references_python.txt";
       Printed LoadingPreexistentReferences;
       LoadReferences "out/test_references_python.txt";
       Save "out/test_references_python.txt";
       Printed NoReferenceToOrientations;
       UploadCCOrientation "ori" "cc orientations" "proj";
       AddReference "ori" "cloud-ori";
       Save "out/test_references_python.txt";
       Printed CheckedDataUpload]
  ∧ count reports_save_error (trace run) = O
  ∧ outcome run
    = Returned (<["ori" := "cloud-ori"]> {[ "imgs" := "cloud-1" ]}).
Proof.
  split_and!; vm_compute; reflexivity.
Qed.

(** * Further properties *)

(** ** The tracking loop on any script of answers *)

Lemma keeps_polling_false (a : ReturnValue JobProgress) :
  keeps_polling a = false ->
  is_error a = true ∨ is_success a = true ∨ is_cancelled a = true
  ∨ is_failed a = true.
Proof.
  unfold keeps_polling, is_running, is_unhandled, is_success, is_cancelled,
    is_failed, handled_state, running_state, terminal_state.
  destruct (is_error a); [by left|]. right.
  destruct (state (value a)); cbn; intros; try discriminate; auto.
Qed.

Lemma keeps_polling_true (a : ReturnValue JobProgress) :
  keeps_polling a = true ->
  is_error a = false ∧ is_success a = false ∧ is_cancelled a = false
  ∧ is_failed a = false.
Proof.
  unfold keeps_polling, is_running, is_unhandled, is_success, is_cancelled,
    is_failed, handled_state, running_state, terminal_state.
  destruct (is_error a); [done|].
  destruct (state (value a)); cbn; intros; try discriminate; auto.
Qed.

(** Every script is a run of answers that keep the loop polling, followed
    by nothing or by a first answer that stops it. *)
Lemma first_stop (script : answers) :
  forallb keeps_polling script = true
  ∨ ∃ (before : answers) (a : ReturnValue JobProgress) (later : answers),
      script = before ++ a :: later
      ∧ forallb keeps_polling before = true
      ∧ keeps_polling a = false.
Proof.
  induction script as [|a script IH]; [by left|].
  destruct (keeps_polling a) eqn:Ha.
  - destruct IH as [IH|(before & b & later & -> & Hb & Hs)].
    + left. cbn. by rewrite Ha, IH.
    + right. exists (a :: before), b, later. cbn. by rewrite Ha, Hb.
  - right. by exists [], a, script.
Qed.

Lemma first_stop_unique (before before' : answers)
    (a a' : ReturnValue JobProgress) (later later' : answers) :
  before ++ a :: later = before' ++ a' :: later' ->
  forallb keeps_polling before = true -> keeps_polling a = false ->
  forallb keeps_polling before' = true -> keeps_polling a' = false ->
  before = before' ∧ a = a' ∧ later = later'.
Proof.
  revert before'.
  induction before as [|b before IH]; intros [|b' before']; cbn;
    intros Heq Hb Ha Hb' Ha'.
  - by injection Heq as -> ->.
  - injection Heq as ? ?. subst.
    apply andb_true_iff in Hb' as [? ?]. congruence.
  - injection Heq as ? ?. subst.
    apply andb_true_iff in Hb as [? ?]. congruence.
  - injection Heq as -> Heq.
    apply andb_true_iff in Hb as [? Hb]. apply andb_true_iff in Hb' as [? Hb'].
    destruct (IH before' Heq Hb Ha Hb' Ha') as (-> & -> & ->). done.
Qed.

(** The turn on an answer that stops the loop. *)
Lemma tracking_stop (job_id : string) (a : ReturnValue JobProgress)
    (later : answers) :
  let r := tracking_job_progress job_id (a :: later) in
  (is_error a = true ->
   r = mkRun [GetJobProgress job_id;
              Printed (ErrorGettingProgress (error a))] later (Exited 1))
  ∧ (is_success a = true ->
     r = mkRun [GetJobProgress job_id; Printed JobDone] later (Returned tt))
  ∧ (is_cancelled a = true ->
     r = mkRun [GetJobProgress job_id; Printed JobCancelled] later (Exited 0))
  ∧ (is_failed a = true ->
     r = mkRun [GetJobProgress job_id; Printed JobFailed;
                Printed (Progress (progress (value a)) (step (value a)))]
               later (Exited 1)).
Proof.
  cbn. unfold poll_body, is_success, is_cancelled, is_failed.
  destruct (is_error a); cbn; [by split_and!|].
  destruct (state (value a)); cbn; by split_and!.
Qed.

Lemma tracking_waiting (job_id : string) (script : answers) :
  forallb keeps_polling script = true ->
  tracking_job_progress job_id script
  = mkRun (turns job_id script ++ [GetJobProgress job_id]) [] Waiting.
Proof.
  intros Hk. rewrite <- (app_nil_r script) at 1.
  by rewrite (tracking_keeps_polling _ _ _ Hk).
Qed.


(** X2: the loop leaves with exit code 0 exactly when the first answer that
    stops it is CANCELLED, with exit code 1 exactly when it is FAILED or an
    error of the query, and with no other exit code. *)
Theorem tracking_exit_codes (job_id : string) (script : answers) :
  let r := tracking_job_progress job_id script in
  (outcome r = Exited 0
   <-> ∃ before a later,
         script = before ++ a :: later
         ∧ forallb keeps_polling before = true
         ∧ is_cancelled a = true)
  ∧ (outcome r = Exited 1
     <-> ∃ before a later,
           script = before ++ a :: later
           ∧ forallb keeps_polling before = true
           ∧ (is_error a = true ∨ is_failed a = true))
  ∧ ∀ code : Z, outcome r = Exited code -> code = 0 ∨ code = 1.
Proof.
  intros r. subst r.
  destruct (first_stop script) as [Hk|(before & a & later & -> & Hb & Ha)].
  { rewrite (tracking_waiting _ _ Hk). cbn [outcome].
    split_and!; [split; [done|]..|done];
      intros (before & a & later & -> & _ & Ha);
      rewrite forallb_app in Hk; cbn in Hk;
      apply andb_true_iff in Hk as [_ [Hk _]%andb_true_iff];
      destruct (keeps_polling_true a Hk) as (?&?&?&?);
      [congruence|destruct Ha; congruence]. }
  rewrite (tracking_keeps_polling _ _ _ Hb), outcome_prepend.
  destruct (tracking_stop job_id a later) as (He & Hs & Hc & Hf).
  assert (∀ before' a' later',
            before ++ a :: later = before' ++ a' :: later' ->
            forallb keeps_polling before' = true ->
            keeps_polling a' = false -> a' = a) as Huniq.
  { intros before' a' later' Heq Hb' Ha'.
    by destruct (first_stop_unique _ _ _ _ _ _ Heq Hb Ha Hb' Ha')
      as (_ & -> & _). }
  assert (∀ a', is_cancelled a' = true -> keeps_polling a' = false) as Hkc.
  { intros a' H. destruct (keeps_polling a') eqn:Hk; [|done].
    destruct (keeps_polling_true a' Hk) as (?&?&?&?). congruence. }
  assert (∀ a', is_error a' = true ∨ is_failed a' = true ->
                keeps_polling a' = false) as Hke.
  { intros a' H. destruct (keeps_polling a') eqn:Hk; [|done].
    destruct (keeps_polling_true a' Hk) as (?&?&?&?).
    destruct H; congruence. }
  assert (is_cancelled a = true ->
          is_error a = false ∧ is_failed a = false) as Hexcl.
  { unfold is_cancelled, is_failed. destruct (is_error a); cbn; [done|].
    destruct (state (value a)); cbn; done. }
  destruct (keeps_polling_false a Ha) as [H|[H|[H|H]]].
  - rewrite (He H). cbn [outcome]. split_and!.
    + split; [done|]. intros (b' & a' & l' & Heq & Hb' & Ha').
      rewrite (Huniq _ _ _ Heq Hb' (Hkc _ Ha')) in Ha'.
      destruct (Hexcl Ha'). congruence.
    + split; [|done]. intros _. exists before, a, later. auto.
    + intros code [= <-]. by right.
  - rewrite (Hs H). cbn [outcome]. split_and!; [split; [done|]..|done].
    + intros (b' & a' & l' & Heq & Hb' & Ha').
      rewrite (Huniq _ _ _ Heq Hb' (Hkc _ Ha')) in Ha'.
      revert H Ha'. unfold is_success, is_cancelled.
      destruct (is_error a); cbn; [done|].
      destruct (state (value a)); cbn; done.
    + intros (b' & a' & l' & Heq & Hb' & Ha').
      rewrite (Huniq _ _ _ Heq Hb' (Hke _ Ha')) in Ha'.
      revert H Ha'. unfold is_success, is_failed.
      destruct (is_error a); cbn; [by intros ? [?|?]|].
      destruct (state (value a)); cbn; by intros ? [?|?].
  - rewrite (Hc H). cbn [outcome]. split_and!.
    + split; [|done]. intros _. exists before, a, later. auto.
    + split; [done|]. intros (b' & a' & l' & Heq & Hb' & Ha').
      rewrite (Huniq _ _ _ Heq Hb' (Hke _ Ha')) in Ha'.
      destruct (Hexcl H). destruct Ha'; congruence.
    + intros code [= <-]. by left.
  - rewrite (Hf H). cbn [outcome]. split_and!.
    + split; [done|]. intros (b' & a' & l' & Heq & Hb' & Ha').
      rewrite (Huniq _ _ _ Heq Hb' (Hkc _ Ha')) in Ha'.
      destruct (Hexcl Ha'). congruence.
    + split; [|done]. intros _. exists before, a, later. auto.
    + intros code [= <-]. by right.
Qed.

(** X3: the loop is still polling at the end of a script exactly when
    every answer of the script is a running or an unhandled state; any
    error or terminal state in the script ends it. *)
Theorem tracking_waiting_iff (job_id : string) (script : answers) :
  outcome (tracking_job_progress job_id script) = Waiting
  <-> forallb keeps_polling script = true.
Proof.
  split.
  - intros Hw.
    destruct (first_stop script) as [Hk|(before & a & later & -> & Hb & Ha)];
      [done|].
    rewrite (tracking_keeps_polling _ _ _ Hb), outcome_prepend in Hw.
    destruct (tracking_stop job_id a later) as (He & Hs & Hc & Hf).
    destruct (keeps_polling_false a Ha) as [H|[H|[H|H]]].
    + rewrite (He H) in Hw. discriminate.
    + rewrite (Hs H) in Hw. discriminate.
    + rewrite (Hc H) in Hw. discriminate.
    + rewrite (Hf H) in Hw. discriminate.
  - intros Hk. by rewrite (tracking_waiting _ _ Hk).
Qed.

Lemma slept_app (tr1 tr2 : list event) :
  slept (tr1 ++ tr2) = slept tr1 + slept tr2.
Proof.
  induction tr1 as [|e tr1 IH]; [done|].
  destruct e; cbn [app slept]; lia.
Qed.

Lemma polled_app (tr1 tr2 : list event) :
  polled (tr1 ++ tr2) = polled tr1 ++ polled tr2.
Proof.
  induction tr1 as [|e tr1 IH]; [done|].
  destruct e; cbn [app polled]; by rewrite ?IH.
Qed.


Lemma poll_body_quiet (a : ReturnValue JobProgress) :
  slept (fst (poll_body a)) = 0
  ∧ polled (fst (poll_body a)) = []
  ∧ count is_query (fst (poll_body a)) = O
  ∧ count is_sleep (fst (poll_body a)) = O.
Proof.
  unfold poll_body. repeat case_match; by cbn.
Qed.

Lemma turns_slept (job_id : string) (before : answers) :
  slept (turns job_id before) = 60 * Z.of_nat (length before).
Proof.
  induction before as [|a before IH]; [done|].
  destruct (poll_body_quiet a) as (Hs & _).
  cbn [turns flat_map] in *. rewrite slept_app. cbn [slept]. fold (turns job_id before).
  rewrite slept_app, Hs, IH. cbn [slept length]. lia.
Qed.

Lemma turns_polled (job_id : string) (before : answers) :
  polled (turns job_id before) = replicate (length before) job_id.
Proof.
  induction before as [|a before IH]; [done|].
  destruct (poll_body_quiet a) as (_ & Hp & _).
  cbn [turns flat_map] in *. rewrite polled_app. cbn [polled]. fold (turns job_id before).
  rewrite polled_app, Hp, IH. done.
Qed.

(** The last turn of a run: one query, no sleep. *)
Lemma tracking_last_turn (job_id : string) (script : answers) :
  ∃ (before : answers) (last_turn : list event),
    trace (tracking_job_progress job_id script)
    = turns job_id before ++ GetJobProgress job_id :: last_turn
    ∧ (length before ≤ length script)%nat
    ∧ slept last_turn = 0 ∧ polled last_turn = []
    ∧ count is_query last_turn = O ∧ count is_sleep last_turn = O.
Proof.
  destruct (first_stop script) as [Hk|(before & a & later & -> & Hb & Ha)].
  - exists script, []. by rewrite (tracking_waiting _ _ Hk).
  - rewrite (tracking_keeps_polling _ _ _ Hb), trace_prepend.
    exists before, (fst (poll_body a) ++
                    match snd (poll_body a) with
                    | Break => [Printed JobDone]
                    | _ => []
                    end).
    destruct (poll_body_quiet a) as (H1 & H2 & H3 & H4).
    rewrite length_app, slept_app, polled_app, !count_app, H1, H2, H3, H4.
    assert (keeps_polling a = false -> snd (poll_body a) ≠ Continue) as Hc.
    { unfold keeps_polling, is_running, is_unhandled, handled_state,
        running_state, terminal_state, poll_body.
      destruct (is_error a); cbn; [done|].
      destruct (state (value a)); cbn; done. }
    specialize (Hc Ha). cbn [tracking_job_progress].
    destruct (poll_body a) as [evs [| |code]]; cbn [fst snd trace] in *;
      [|done|]; rewrite ?app_nil_r; split_and!; try done; lia.
Qed.

Lemma calls_app (tr1 tr2 : list event) :
  calls (tr1 ++ tr2) = calls tr1 ++ calls tr2.
Proof. apply List.filter_app. Qed.

(** What one turn of the loop does besides its query and its sleep is
    printing. *)
Lemma poll_body_calls (a : ReturnValue JobProgress) :
  calls (fst (poll_body a)) = [].
Proof.
  unfold poll_body. repeat case_match; by cbn.
Qed.

Lemma turns_calls (job_id : string) (before : answers) :
  calls (turns job_id before)
  = concat (replicate (length before) [GetJobProgress job_id; Sleep 60]).
Proof.
  induction before as [|a before IH]; [done|].
  cbn [turns flat_map]. fold (turns job_id before).
  change (GetJobProgress job_id :: fst (poll_body a) ++ [Sleep 60])
    with ([GetJobProgress job_id] ++ fst (poll_body a) ++ [Sleep 60]).
  rewrite !calls_app, poll_body_calls, IH. done.
Qed.

(** The calls of a whole run: a query and a sleep of 60 seconds for each
    answer that keeps the loop polling, then one query. *)
Lemma tracking_calls (job_id : string) (script : answers) :
  ∃ before rest : answers,
    script = before ++ rest
    ∧ forallb keeps_polling before = true
    ∧ (∀ a, head rest = Some a -> keeps_polling a = false)
    ∧ calls (trace (tracking_job_progress job_id script))
      = concat (replicate (length before)
                  [GetJobProgress job_id; Sleep 60])
        ++ [GetJobProgress job_id].
Proof.
  destruct (first_stop script) as [Hk|(before & a & later & -> & Hb & Ha)].
  - exists script, []. rewrite app_nil_r. split_and!; [done|done|done|].
    rewrite (tracking_waiting _ _ Hk). cbn [trace].
    by rewrite calls_app, turns_calls.
  - exists before, (a :: later). split_and!; [done|done| |].
    { by intros ? [= <-]. }
    rewrite (tracking_keeps_polling _ _ _ Hb), trace_prepend, calls_app,
      turns_calls.
    f_equal. cbn [tracking_job_progress].
    pose proof (poll_body_calls a) as Hc.
    assert (snd (poll_body a) ≠ Continue) as Hn.
    { revert Ha.
      unfold keeps_polling, is_running, is_unhandled, handled_state,
        running_state, terminal_state, poll_body.
      destruct (is_error a); cbn; [done|].
      destruct (state (value a)); cbn; done. }
    destruct (poll_body a) as [evs [| |code]]; cbn [fst snd trace] in *;
      [|done|].
    + change (GetJobProgress job_id :: evs ++ [Printed JobDone])
        with ([GetJobProgress job_id] ++ evs ++ [Printed JobDone]).
      by rewrite !calls_app, Hc.
    + change (GetJobProgress job_id :: evs)
        with ([GetJobProgress job_id] ++ evs).
      by rewrite calls_app, Hc.
Qed.

(** X4: on every script, what the loop does besides printing is a query,
    a sleep of 60 seconds, a query, a sleep of 60 seconds, and so on, and
    a query at the end: one sleep after the query of each answer that
    keeps the loop polling, none after the last query, and every query
    asks for the job that was given.  So there is one query more than
    there are sleeps, and at most one query more than there are answers. *)
Theorem tracking_sleeps_between_queries (job_id : string) (script : answers) :
  let tr := trace (tracking_job_progress job_id script) in
  (∃ before rest : answers,
     script = before ++ rest
     ∧ forallb keeps_polling before = true
     ∧ (∀ a, head rest = Some a -> keeps_polling a = false)
     ∧ calls tr
       = concat (replicate (length before)
                   [GetJobProgress job_id; Sleep 60])
         ++ [GetJobProgress job_id])
  ∧ queries tr = S (count is_sleep tr)
  ∧ slept tr = 60 * Z.of_nat (count is_sleep tr)
  ∧ polled tr = replicate (queries tr) job_id
  ∧ (queries tr ≤ S (length script))%nat.
Proof.
  intros tr. subst tr. split; [apply tracking_calls|].
  destruct (tracking_last_turn job_id script)
    as (before & last_turn & -> & Hlen & Hs & Hp & Hq & Hsl).
  unfold queries.
  rewrite !count_app, slept_app, polled_app, turns_sleeps, turns_slept,
    turns_polled.
  fold (queries (turns job_id before)). rewrite turns_queries.
  cbn [count is_query is_sleep slept polled]. rewrite Hs, Hp, Hq, Hsl.
  split_and!; try lia.
  by rewrite replicate_add.
Qed.



(** ** [upload_data] on any world *)

Section UploadMore.

Context (world : Collaborators).
Context (project_id imgs ori imgs_name ori_name output_path : string).

(** A sequence ends as its steps end: the condition [Q] holds where the
    first step returns, [R] relates store and outcome where the sequence
    ends. *)
Lemma bind_ends {S A B} (P Q : S -> Prop) (R : S -> Outcome B -> Prop)
    (m : Prog S A) (k : A -> Prog S B) :
  (∀ s, P s ->
        match outcome (m s) with
        | Returned _ => Q (final (m s))
        | Exited code => R (final (m s)) (Exited code)
        | Waiting => R (final (m s)) Waiting
        end) ->
  (∀ a s, Q s -> R (final (k a s)) (outcome (k a s))) ->
  ∀ s, P s -> R (final (bind m k s)) (outcome (bind m k s)).
Proof.
  intros Hm Hk s Hs. unfold bind. specialize (Hm s Hs).
  destruct (m s) as [tr s' [a| |]]; cbn [outcome final] in *; [|done..].
  rewrite final_prepend, outcome_prepend. by apply Hk.
Qed.

Lemma bind_exits_after_report {S A B} (m : Prog S A) (k : A -> Prog S B)
    (s : S) :
  exits_after_report (m s) ->
  (∀ a s', exits_after_report (k a s')) ->
  exits_after_report (bind m k s).
Proof.
  unfold exits_after_report, bind. intros Hm Hk.
  destruct (m s) as [tr s' [a| |]]; cbn [outcome trace] in *; [|done..].
  specialize (Hk a s'). rewrite outcome_prepend, trace_prepend.
  destruct (outcome (k a s')); [done| |done].
  destruct Hk as [-> (msg & Hl & He)]. split; [done|].
  exists msg. split; [|done]. rewrite last_app. by rewrite Hl.
Qed.

Lemma bind_last_returned {S A B} (e : event)
    (m : Prog S A) (k : A -> Prog S B) (s : S) :
  (∀ a s' b, outcome (k a s') = Returned b ->
             last (trace (k a s')) = Some e) ->
  ∀ b, outcome (bind m k s) = Returned b ->
       last (trace (bind m k s)) = Some e.
Proof.
  intros Hk b. unfold bind.
  destruct (m s) as [tr s' [a| |]]; cbn [outcome]; try discriminate.
  rewrite outcome_prepend, trace_prepend. intros H.
  rewrite last_app. by rewrite (Hk a s' b H).
Qed.

(** The end of [upload_data]: the second [save], its check, and the
    return of the table. *)
Lemma upload_data_tail_run (references_path : string) (s : Store) :
  let ret_ := save world (saves s) references_path (references s) in
  let s' := mkStore (references s) (S (saves s)) in
  (ret_ <- references_save world references_path ;;
   when (is_error ret_) (
     print (ErrorSavingReferences (error ret_)) ;;
     exit 1) ;;
   print CheckedDataUpload ;;
   gets references) s
  = if is_error ret_
    then mkRun [Save references_path;
                Printed (ErrorSavingReferences (error ret_))] s' (Exited 1)
    else mkRun [Save references_path; Printed CheckedDataUpload] s'
               (Returned (references s)).
Proof.
  intros ret_ s'. unfold bind, references_save, print, emit, exit, gets.
  fold ret_. by destruct (is_error ret_).
Qed.

(** X6: when the reference file exists and cannot be loaded, [upload_data]
    prints the error and exits with code 1 at once: nothing is uploaded and
    nothing is saved. *)
Theorem upload_data_load_failure (s0 : Store) :
  let references_path :=
    path_join output_path "test_references_python.txt" in
  isfile world references_path = true ->
  is_error (fst (load world references_path)) = true ->
  upload_data world project_id imgs ori imgs_name ori_name output_path s0
  = mkRun [IsFile references_path;
           Printed LoadingPreexistentReferences;
           LoadReferences references_path;
           Printed (ErrorLoadingReferences
                      (error (fst (load world references_path))))]
          (mkStore (snd (load world references_path)) (saves s0))
          (Exited 1).
Proof.
  intros p Hf He. unfold upload_data. cbv zeta. fold p.
  apply bind_exited.
  unfold create_reference_table, bind, new_reference_table, emit, print,
    references_load, exit.
  cbn [prepend app]. rewrite Hf. cbn [when prepend app].
  destruct (load world p) as [lr stored]. cbn [fst snd] in *.
  by rewrite He.
Qed.

(** What holds of the store of [upload_data] at the stages of a run that
    returns. *)
Lemma upload_data_returned (s0 : Store) (refs : table) :
  let references_path :=
    path_join output_path "test_references_python.txt" in
  let run := upload_data world project_id imgs ori imgs_name ori_name
               output_path s0 in
  outcome run = Returned refs ->
  refs = references (final run)
  ∧ is_Some (refs !! imgs)
  ∧ is_Some (refs !! ori)
  ∧ saves (final run) = S (S (saves s0))
  ∧ is_error (save world (S (saves s0)) references_path refs) = false.
Proof.
  intros p run. subst run. unfold upload_data. cbv zeta. fold p.
  pose (R := fun (s : Store) (o : Outcome table) =>
    ∀ refs, o = Returned refs ->
      refs = references s
      ∧ is_Some (refs !! imgs)
      ∧ is_Some (refs !! ori)
      ∧ saves s = S (S (saves s0))
      ∧ is_error (save world (S (saves s0)) p refs) = false).
  revert refs. change (R (final (upload_data world project_id imgs ori
    imgs_name ori_name output_path s0)) (outcome (upload_data world
    project_id imgs ori imgs_name ori_name output_path s0))).
  unfold upload_data. cbv zeta. fold p.
  apply (bind_ends (fun s => s = s0) (fun s => saves s = saves s0) R);
    [| |done].
  { intros s ->.
    pose proof (create_reference_table_saves world p s0) as Hs.
    by destruct (outcome (create_reference_table world p s0)). }
  intros _.
  apply (bind_ends _
           (fun s => saves s = saves s0 ∧ is_Some (references s !! imgs)) R).
  { intros s Hs.
    destruct (upload_ccimage_collection_cases world project_id imgs
                imgs_name s) as [[Hk ->]|[(Hk&_& ->)|(Hk&_& ->)]];
      cbn [outcome final references saves]; [done|done|].
    split; [done|]. rewrite lookup_insert_eq. by eexists. }
  intros _.
  apply (bind_ends _
           (fun s => saves s = S (saves s0)
                     ∧ is_Some (references s !! imgs)) R).
  { intros s [Hs Hi]. cbn. by rewrite Hs. }
  intros _.
  apply (bind_ends _
           (fun s => saves s = S (saves s0)
                     ∧ is_Some (references s !! imgs)
                     ∧ is_Some (references s !! ori)) R).
  { intros s [Hs Hi].
    destruct (upload_ccorientations_cases world project_id ori ori_name s)
      as [[Hk ->]|[(Hk&_& ->)|(Hk&_& ->)]];
      cbn [outcome final references saves]; [done|done|].
    split_and!; [done| |].
    - destruct (decide (ori = imgs)) as [->|Hne].
      + rewrite lookup_insert_eq. by eexists.
      + by rewrite lookup_insert_ne.
    - rewrite lookup_insert_eq. by eexists. }
  intros _ s (Hs & Hi & Ho). rewrite upload_data_tail_run. cbv zeta.
  rewrite Hs.
  destruct (is_error (save world (S (saves s0)) p (references s))) eqn:He;
    cbn [final outcome references saves]; intros refs [= <-].
  by split_and!.
Qed.

(** X7: when [upload_data] returns, the table it returns has a cloud id
    for the image collection and one for the orientations, so both lookups
    of [create_job_settings] succeed and the inputs of the job settings are
    these two ids, in this order. *)
Theorem upload_data_returns_complete_table (s0 : Store) (refs : table) :
  outcome (upload_data world project_id imgs ori imgs_name ori_name
             output_path s0) = Returned refs ->
  ∃ id_imgs id_ori : string,
    refs !! imgs = Some id_imgs
    ∧ refs !! ori = Some id_ori
    ∧ is_error (ReferenceTable.get_cloud_id_from_local_path refs imgs) = false
    ∧ is_error (ReferenceTable.get_cloud_id_from_local_path refs ori) = false
    ∧ ∀ (outs : Outputs) (quality : CCJobQuality),
        outcome (create_job_settings refs imgs ori outs quality tt)
        = Returned (mkCCJobSettings [id_imgs; id_ori] outs quality).
Proof.
  intros Hr.
  destruct (upload_data_returned s0 refs Hr)
    as (_ & [id_imgs Hi] & [id_ori Ho] & _).
  exists id_imgs, id_ori. split_and!; [done|done|..].
  - unfold ReferenceTable.get_cloud_id_from_local_path. by rewrite Hi.
  - unfold ReferenceTable.get_cloud_id_from_local_path. by rewrite Ho.
  - intros outs quality. unfold create_job_settings, bind, print, emit, ret.
    cbn [prepend outcome].
    unfold ReferenceTable.get_cloud_id_from_local_path. by rewrite Hi, Ho.
Qed.

(** X8: [upload_data] returns a table only after its second [save] was
    given exactly that table and succeeded; by then [save] has been called
    twice, and "Checked data upload" is the last line printed. *)
Theorem upload_data_returns_saved_table (s0 : Store) (refs : table) :
  let references_path :=
    path_join output_path "test_references_python.txt" in
  let run := upload_data world project_id imgs ori imgs_name ori_name
               output_path s0 in
  outcome run = Returned refs ->
  is_error (save world (S (saves s0)) references_path refs) = false
  ∧ references (final run) = refs
  ∧ saves (final run) = S (S (saves s0))
  ∧ last (trace run) = Some (Printed CheckedDataUpload).
Proof.
  intros p run Hr.
  destruct (upload_data_returned s0 refs Hr) as (Hrefs & _ & _ & Hs & He).
  fold run in Hrefs, Hs. fold p in He. split_and!; [done|done|done|].
  clear Hrefs Hs He. revert refs Hr. subst run. unfold upload_data.
  cbv zeta.
  do 4 (apply bind_last_returned; intros ? ?).
  intros refs. rewrite upload_data_tail_run. cbv zeta.
  by destruct (is_error _).
Qed.

(** X9: when the loaded reference table already knows both resources,
    [upload_data] uploads nothing and adds nothing: it reads the file,
    saves the unchanged table twice, and its outcome only depends on the
    second [save]. *)
Theorem upload_data_all_known (s0 : Store) (refs0 : table) :
  let references_path :=
    path_join output_path "test_references_python.txt" in
  let ret_ := save world (S (saves s0)) references_path refs0 in
  loaded_references world output_path = Some refs0 ->
  is_Some (refs0 !! imgs) ->
  is_Some (refs0 !! ori) ->
  upload_data world project_id imgs ori imgs_name ori_name output_path s0
  = mkRun [IsFile references_path;
           Printed LoadingPreexistentReferences;
           LoadReferences references_path;
           Save references_path;
           Save references_path;
           Printed (if is_error ret_
                    then ErrorSavingReferences (error ret_)
                    else CheckedDataUpload)]
          (mkStore refs0 (S (S (saves s0))))
          (if is_error ret_ then Exited 1 else Returned refs0).
Proof.
  intros p ret_ Hl Hi Ho.
  pose proof (create_reference_table_loaded world output_path refs0 s0 Hl)
    as Hload.
  cbv zeta in Hload. fold p in Hload.
  assert (isfile world p = true) as Hf.
  { unfold loaded_references in Hl. cbv zeta in Hl. fold p in Hl.
    destruct (isfile world p); [done|].
    injection Hl as <-. rewrite lookup_empty in Hi. by destruct Hi. }
  rewrite Hf in Hload.
  unfold upload_data. cbv zeta. fold p.
  rewrite (bind_returned (create_reference_table world _) _ _ _ _ _ Hload).
  rewrite (bind_returned (upload_ccimage_collection world _ _ _) _ _ _ _ _
             (upload_ccimage_collection_known world project_id imgs
                imgs_name (mkStore refs0 (saves s0))
                (proj2 (has_local_path_true _ _) Hi))).
  rewrite (bind_returned (references_save world _) _ _ _ _ _ eq_refl).
  rewrite (bind_returned (upload_ccorientations world _ _ _) _ _ _ _ _
             (upload_ccorientations_known world project_id ori ori_name
                (mkStore refs0 (S (saves s0)))
                (proj2 (has_local_path_true _ _) Ho))).
  rewrite upload_data_tail_run. cbv zeta. cbn [references saves].
  fold ret_. by destruct (is_error ret_).
Qed.

(** X10: when both resources are the same local path, not yet known, and
    its upload as an image collection succeeds, [upload_ccorientation] is
    never called: the path is uploaded once, gets one reference, and that
    one cloud id is used for both inputs of the job settings. *)
Theorem upload_data_same_path (s0 : Store) (refs0 : table) (r : string) :
  let up := upload_reality_data world r imgs_name CCImageCollection
              project_id in
  let run := upload_data world project_id r r imgs_name ori_name
               output_path s0 in
  loaded_references world output_path = Some refs0 ->
  refs0 !! r = None ->
  is_error up = false ->
  count is_orientation_upload (trace run) = O
  ∧ count is_collection_upload (trace run) = 1%nat
  ∧ count is_add_reference (trace run) = 1%nat
  ∧ references (final run) = <[r := value up]> refs0
  ∧ ∀ refs : table,
      outcome run = Returned refs ->
      ∀ (outs : Outputs) (quality : CCJobQuality),
        outcome (create_job_settings refs r r outs quality tt)
        = Returned (mkCCJobSettings [value up; value up] outs quality).
Proof.
  intros up run Hl Hn He. subst run.
  pose proof (create_reference_table_loaded world output_path refs0 s0 Hl)
    as Hload.
  cbv zeta in Hload.
  unfold upload_data. cbv zeta. set (p := path_join _ _) in *.
  rewrite (bind_returned (create_reference_table world _) _ _ _ _ _ Hload).
  rewrite (bind_returned (upload_ccimage_collection world _ _ _) _ _ _ _ _
             (upload_ccimage_collection_uploads world project_id r
                imgs_name (mkStore refs0 (saves s0))
                (proj2 (has_local_path_false _ _) Hn) He)).
  fold up.
  rewrite (bind_returned (references_save world _) _ _ _ _ _ eq_refl).
  assert (ReferenceTable.has_local_path (<[r := value up]> refs0) r = true)
    as Hk.
  { apply has_local_path_true. rewrite lookup_insert_eq. by eexists. }
  rewrite (bind_returned (upload_ccorientations world _ _ _) _ _ _ _ _
             (upload_ccorientations_known world project_id r ori_name
                (mkStore (<[r := value up]> refs0) (S (saves s0))) Hk)).
  rewrite upload_data_tail_run. cbv zeta. cbn [references saves].
  destruct (is_error (save world (S (saves s0)) p _));
    cbn [prepend trace final outcome references];
    rewrite !count_app, !count_loading by reflexivity;
    (split_and!; [reflexivity..|]); intros refs [= <-].
  intros outs quality. unfold create_job_settings, bind, print, emit, ret.
  cbn [prepend outcome].
  unfold ReferenceTable.get_cloud_id_from_local_path.
  by rewrite lookup_insert_eq.
Qed.

(** X11: [upload_data] is never left half way: it returns, or it leaves
    with exit code 1 and the last thing it did was to print an error
    line. *)
Theorem upload_data_exits_after_report (s0 : Store) :
  exits_after_report
    (upload_data world project_id imgs ori imgs_name ori_name output_path s0).
Proof.
  unfold upload_data. cbv zeta. set (p := path_join _ _).
  apply bind_exits_after_report.
  { unfold create_reference_table, bind, new_reference_table, emit, print,
      references_load, exit, exits_after_report.
    cbn [prepend app]. destruct (isfile world p); cbn [when prepend]; [|done].
    destruct (load world p) as [lr stored].
    destruct (is_error lr); cbn; [|done].
    split; [done|]. by eexists. }
  intros _ s1. apply bind_exits_after_report.
  { destruct (upload_ccimage_collection_cases world project_id imgs
                imgs_name s1) as [[_ ->]|[(_&_& ->)|(_&_& ->)]];
      unfold exits_after_report; cbn; [done| |done].
    split; [done|]. by eexists. }
  intros _ s2. apply bind_exits_after_report; [done|].
  intros _ s3. apply bind_exits_after_report.
  { destruct (upload_ccorientations_cases world project_id ori ori_name s3)
      as [[_ ->]|[(_&_& ->)|(_&_& ->)]];
      unfold exits_after_report; cbn; [done| |done].
    split; [done|]. by eexists. }
  intros _ s4. rewrite upload_data_tail_run. cbv zeta.
  unfold exits_after_report.
  destruct (is_error _); cbn; [|done].
  split; [done|]. by eexists.
Qed.

End UploadMore.

Lemma upload_data_load_failure_witness :
  upload_data world_unreadable_references "proj" "imgs" "ori" "Photos"
    "cc orientations" "out" fresh
  = mkRun [IsFile "out/test_references_python.txt";
           Printed LoadingPreexistentReferences;
           LoadReferences "out/test_references_python.txt";
           Printed (ErrorLoadingReferences "bad line")]
          (mkStore ∅ 0) (Exited 1).
Proof.
  apply (upload_data_load_failure world_unreadable_references "proj" "imgs"
           "ori" "Photos" "cc orientations" "out" fresh); reflexivity.
Defined.

Lemma upload_data_returns_complete_table_witness :
  ∃ id_imgs id_ori : string,
    let refs : table := <["ori" := "cloud-ori"]> {[ "imgs" := "cloud-1" ]} in
    refs !! "imgs" = Some id_imgs
    ∧ refs !! "ori" = Some id_ori
    ∧ is_error (ReferenceTable.get_cloud_id_from_local_path refs "imgs")
      = false
    ∧ is_error (ReferenceTable.get_cloud_id_from_local_path refs "ori")
      = false
    ∧ ∀ (outs : Outputs) (quality : CCJobQuality),
        outcome (create_job_settings refs "imgs" "ori" outs quality tt)
        = Returned (mkCCJobSettings [id_imgs; id_ori] outs quality).
Proof.
  apply (upload_data_returns_complete_table world_with_references "proj"
           "imgs" "ori" "Photos" "cc orientations" "out" fresh
           (<["ori" := "cloud-ori"]> {[ "imgs" := "cloud-1" ]})).
  vm_compute. reflexivity.
Defined.

Lemma upload_data_returns_saved_table_witness :
  let run := upload_data world_with_references "proj" "imgs" "ori" "Photos"
               "cc orientations" "out" fresh in
  let refs : table := <["ori" := "cloud-ori"]> {[ "imgs" := "cloud-1" ]} in
  is_error (save world_with_references 1 "out/test_references_python.txt"
              refs) = false
  ∧ references (final run) = refs
  ∧ saves (final run) = 2%nat
  ∧ last (trace run) = Some (Printed CheckedDataUpload).
Proof.
  apply (upload_data_returns_saved_table world_with_references "proj"
           "imgs" "ori" "Photos" "cc orientations" "out" fresh
           (<["ori" := "cloud-ori"]> {[ "imgs" := "cloud-1" ]})).
  vm_compute. reflexivity.
Defined.

Lemma upload_data_all_known_witness :
  upload_data world_complete_references "proj" "imgs" "ori" "Photos"
    "cc orientations" "out" fresh
  = mkRun [IsFile "out/test_references_python.txt";
           Printed LoadingPreexistentReferences;
           LoadReferences "out/test_references_python.txt";
           Save "out/test_references_python.txt";
           Save "out/test_references_python.txt";
           Printed CheckedDataUpload]
          (mkStore (<["ori" := "cloud-2"]> {[ "imgs" := "cloud-1" ]}) 2)
          (Returned (<["ori" := "cloud-2"]> {[ "imgs" := "cloud-1" ]})).
Proof.
  apply (upload_data_all_known world_complete_references "proj" "imgs" "ori"
           "Photos" "cc orientations" "out" fresh
           (<["ori" := "cloud-2"]> {[ "imgs" := "cloud-1" ]}));
    [reflexivity|by eexists..].
Defined.

Lemma upload_data_same_path_witness :
  let run := upload_data world_failing_orientations "proj" "data" "data"
               "Photos" "cc orientations" "out" fresh in
  count is_orientation_upload (trace run) = O
  ∧ count is_collection_upload (trace run) = 1%nat
  ∧ count is_add_reference (trace run) = 1%nat
  ∧ references (final run) = <["data" := "cloud-new"]> ∅
  ∧ ∀ refs : table,
      outcome run = Returned refs ->
      ∀ (outs : Outputs) (quality : CCJobQuality),
        outcome (create_job_settings refs "data" "data" outs quality tt)
        = Returned (mkCCJobSettings ["cloud-new"; "cloud-new"] outs quality).
Proof.
  apply (upload_data_same_path world_failing_orientations "proj" "Photos"
           "cc orientations" "out" fresh ∅ "data"); reflexivity.
Defined.

(** ** [download_outputs] on any world *)

Section DownloadMore.

Context (world : Collaborators).
Context {S : Type}.
Context (project_id output_path : string).

(** X12: when the job properties cannot be read, [download_outputs] prints
    the error and exits with code 1 without attempting any download. *)
Theorem download_outputs_properties_failure (job_id : string) (s : S) :
  let ret_ := get_job_properties world job_id in
  is_error ret_ = true ->
  download_outputs world project_id job_id output_path s
  = mkRun [Printed RetrievingOutputsIds;
           GetJobProperties job_id;
           Printed (ErrorGettingProperties (error ret_))]
          s (Exited 1).
Proof.
  intros ret_ He.
  unfold download_outputs, bind, call_get_job_properties, print, emit, exit.
  cbn [prepend app]. fold ret_. by rewrite He.
Qed.

Lemma download_reports_app (tr1 tr2 : list event) :
  download_reports (tr1 ++ tr2) = download_reports tr1 ++ download_reports tr2.
Proof.
  induction tr1 as [|e tr1 IH]; [done|].
  destruct e as [[]| | | | | | | | | |]; cbn [app download_reports];
    by rewrite ?IH.
Qed.

Lemma download_errors_app (tr1 tr2 : list event) :
  download_errors (tr1 ++ tr2) = download_errors tr1 ++ download_errors tr2.
Proof.
  induction tr1 as [|e tr1 IH]; [done|].
  destruct e as [[]| | | | | | | | | |]; cbn [app download_errors];
    by rewrite ?IH.
Qed.

Lemma download_loop_reports (outs : Outputs) (s : S) :
  let run :=
    for_each (filter (fun kv => is_Some (snd kv)) outs) (fun kv =>
      let output_type := fst kv in
      match snd kv with
      | Some output_id =>
          ret_ <- call_download_reality_data world output_id output_path
                    project_id ;;
          when (is_error ret_) (
            print (ErrorDownloading output_type (error ret_))) ;;
          print (Downloaded output_type ret_)
      | None => ret tt
      end) s in
  download_reports (trace run)
  = omap (fun kv =>
            match snd kv with
            | Some output_id =>
                Some (fst kv,
                      download_reality_data world output_id output_path
                        project_id)
            | None => None
            end) outs
  ∧ download_errors (trace run)
    = omap (fun kv =>
              match snd kv with
              | Some output_id =>
                  let ret_ := download_reality_data world output_id
                                output_path project_id in
                  if is_error ret_ then Some (fst kv, error ret_) else None
              | None => None
              end) outs.
Proof.
  induction outs as [|[k [id|]] outs IH]; intros run; subst run.
  - done.
  - rewrite filter_cons_True by (by eexists).
    cbn [for_each fst snd]. cbv zeta in IH. destruct IH as [IHr IHe].
    rewrite (bind_returned _ _ _ _ _ _ (download_one world project_id
                                          output_path k id s)).
    rewrite trace_prepend, download_reports_app, download_errors_app, IHr, IHe.
    cbn [omap list_omap fst snd]. cbv zeta.
    destruct (is_error _); by cbn.
  - rewrite filter_cons_False by (by intros [? [=]]).
    cbv zeta in IH. destruct IH as [IHr IHe]. by cbn [omap list_omap snd].
Qed.

(** X13: [download_outputs] prints its "Downloaded" line for every output
    it attempted, in order, whether the download succeeded or failed, with
    the answer of that download; the failed ones are the ones that have an
    error line as well. *)
Theorem download_outputs_reports (job_id : string) (s : S) :
  let properties_ret := get_job_properties world job_id in
  is_error properties_ret = false ->
  let outs := outputs (job_settings (value properties_ret)) in
  let run := download_outputs world project_id job_id output_path s in
  download_reports (trace run)
  = omap (fun kv =>
            match snd kv with
            | Some output_id =>
                Some (fst kv,
                      download_reality_data world output_id output_path
                        project_id)
            | None => None
            end) outs
  ∧ download_errors (trace run)
    = omap (fun kv =>
              match snd kv with
              | Some output_id =>
                  let ret_ := download_reality_data world output_id
                                output_path project_id in
                  if is_error ret_ then Some (fst kv, error ret_) else None
              | None => None
              end) outs
  ∧ final run = s.
Proof.
  intros properties_ret He outs run. subst run.
  destruct (download_loop_reports outs s) as (Hr & Herr).
  destruct (download_loop world project_id output_path outs s)
    as (_ & Ho & Hf & _).
  unfold download_outputs, bind, call_get_job_properties, print, emit.
  cbn [prepend app]. fold properties_ret. rewrite He.
  cbn [when ret prepend app].
  fold outs. set (loop := for_each _ _) in *.
  destruct (loop s) as [tr s' o]. cbn [trace outcome final] in *. subst o s'.
  cbn [prepend trace final app download_reports download_errors].
  rewrite download_reports_app, download_errors_app, Hr, Herr.
  cbn [download_reports download_errors]. by rewrite !app_nil_r.
Qed.

End DownloadMore.

Lemma download_outputs_properties_failure_witness :
  download_outputs world_unreadable_references "proj" "job" "out" tt
  = mkRun [Printed RetrievingOutputsIds;
           GetJobProperties "job";
           Printed (ErrorGettingProperties "no such job")]
          tt (Exited 1).
Proof.
  apply (download_outputs_properties_failure world_unreadable_references
           "proj" "out" "job" tt).
  reflexivity.
Defined.

Lemma download_outputs_reports_witness :
  let run := download_outputs world_with_references "proj" "job" "out" tt in
  download_reports (trace run)
  = [("A", mkReturnValue false "404"); ("C", succeed true)]
  ∧ download_errors (trace run) = [("A", "404")]
  ∧ final run = tt.
Proof.
  apply (download_outputs_reports world_with_references "proj" "out" "job"
           tt).
  reflexivity.
Defined.

(** ** The events of each part *)

Lemma count_zero_Forall (p : event -> bool) (tr : list event) :
  count p tr = O -> Forall (fun e => p e = false) tr.
Proof.
  induction tr as [|e tr IH]; cbn [count]; [by constructor|].
  destruct (p e) eqn:He; [done|]. intros H. constructor; auto.
Qed.

Lemma upload_data_events (world : Collaborators)
    (project_id imgs ori imgs_name ori_name output_path : string)
    (s0 : Store) :
  Forall (fun e => upload_event e = true)
    (trace (upload_data world project_id imgs ori imgs_name ori_name
              output_path s0)).
Proof.
  pose (p := fun e => negb (upload_event e)).
  assert (count p (trace (upload_data world project_id imgs ori imgs_name
                            ori_name output_path s0)) = O) as H.
  { unfold upload_data. cbv zeta. set (path := path_join _ _).
    apply (bind_keeps (fun _ => True) (fun _ => True) (fun _ => True) p);
      [done| | |done].
    { intros s _. split; [done|].
      unfold create_reference_table, bind, new_reference_table, emit, print,
        references_load, exit.
      cbn [prepend app]. destruct (isfile world path); cbn [when prepend];
        [|done].
      destruct (load world path) as [lr stored].
      by destruct (is_error lr). }
    intros _.
    apply (bind_keeps (fun _ => True) (fun _ => True) (fun _ => True) p);
      [done| |].
    { intros s _. split; [done|].
      by destruct (upload_ccimage_collection_cases world project_id imgs
                     imgs_name s) as [[_ ->]|[(_&_& ->)|(_&_& ->)]]. }
    intros _.
    apply (bind_keeps (fun _ => True) (fun _ => True) (fun _ => True) p);
      [done|done|].
    intros _.
    apply (bind_keeps (fun _ => True) (fun _ => True) (fun _ => True) p);
      [done| |].
    { intros s _. split; [done|].
      by destruct (upload_ccorientations_cases world project_id ori ori_name
                     s) as [[_ ->]|[(_&_& ->)|(_&_& ->)]]. }
    intros _ s _. split; [done|].
    rewrite upload_data_tail_run. cbv zeta. by destruct (is_error _). }
  apply count_zero_Forall in H.
  eapply Forall_impl; [exact H|]. intros e. unfold p.
  by destruct (upload_event e).
Qed.

Lemma upload_data_exit_code (world : Collaborators)
    (project_id imgs ori imgs_name ori_name output_path : string)
    (s0 : Store) :
  match outcome (upload_data world project_id imgs ori imgs_name ori_name
                   output_path s0) with
  | Returned _ => True
  | Exited code => code = 1
  | Waiting => False
  end.
Proof.
  pose (R := fun (_ : Store) (o : Outcome table) =>
    match o with
    | Returned _ => True
    | Exited code => code = 1
    | Waiting => False
    end).
  change (R (final (upload_data world project_id imgs ori imgs_name ori_name
                      output_path s0))
            (outcome (upload_data world project_id imgs ori imgs_name
                        ori_name output_path s0))).
  unfold upload_data. cbv zeta. set (path := path_join _ _).
  apply (bind_ends (fun _ => True) (fun _ => True) R); [| |done].
  { intros s _.
    unfold create_reference_table, bind, new_reference_table, emit, print,
      references_load, exit.
    cbn [prepend app]. destruct (isfile world path); cbn [when prepend];
      [|done].
    destruct (load world path) as [lr stored].
    by destruct (is_error lr). }
  intros _. apply (bind_ends (fun _ => True) (fun _ => True) R).
  { intros s _.
    by destruct (upload_ccimage_collection_cases world project_id imgs
                   imgs_name s) as [[_ ->]|[(_&_& ->)|(_&_& ->)]]. }
  intros _. apply (bind_ends (fun _ => True) (fun _ => True) R); [done|].
  intros _. apply (bind_ends (fun _ => True) (fun _ => True) R).
  { intros s _.
    by destruct (upload_ccorientations_cases world project_id ori ori_name s)
      as [[_ ->]|[(_&_& ->)|(_&_& ->)]]. }
  intros _ s _. rewrite upload_data_tail_run. cbv zeta.
  by destruct (is_error _).
Qed.

Lemma poll_body_events (a : ReturnValue JobProgress) :
  Forall (fun e => tracking_event e = true) (fst (poll_body a)).
Proof.
  unfold poll_body. repeat case_match; cbn [fst]; by repeat constructor.
Qed.

Lemma tracking_events (job_id : string) (script : answers) :
  Forall (fun e => tracking_event e = true)
    (trace (tracking_job_progress job_id script)).
Proof.
  induction script as [|a script IH]; cbn [tracking_job_progress].
  { by repeat constructor. }
  pose proof (poll_body_events a) as Ha.
  destruct (poll_body a) as [evs [| |code]]; cbn [fst] in Ha;
    rewrite ?trace_prepend; cbn [trace].
  - constructor; [done|]. apply Forall_app. split; [done|].
    by repeat constructor.
  - constructor; [done|]. apply Forall_app. split; [|done].
    apply Forall_app. split; [done|]. by repeat constructor.
  - by constructor.
Qed.

Lemma turns_prints (job_id : string) (before : answers) (m : message) :
  forallb keeps_polling before = true ->
  Printed m ∈ turns job_id before ->
  ∃ percent current_step, m = Progress percent current_step.
Proof.
  induction before as [|a before IH]; cbn [turns flat_map forallb].
  { by intros _ ?%elem_of_nil. }
  intros [Ha Hb]%andb_true_iff. fold (turns job_id before).
  intros [H|H]%elem_of_cons; [discriminate H|].
  apply elem_of_app in H as [H|H]; [|by apply IH].
  apply elem_of_app in H as [H|H].
  - unfold keeps_polling in Ha. apply orb_true_iff in Ha as [Ha|Ha].
    + rewrite (poll_body_running a Ha) in H. cbn [fst] in H.
      apply list_elem_of_singleton in H. injection H as ->. by eexists _, _.
    + rewrite (poll_body_unhandled a Ha) in H. by apply elem_of_nil in H.
  - apply list_elem_of_singleton in H. discriminate H.
Qed.

(** How the outcome of the tracking loop shows in what it prints. *)
Lemma tracking_ends (job_id : string) (script : answers) :
  let r := tracking_job_progress job_id script in
  (outcome r = Returned tt <-> Printed JobDone ∈ trace r)
  ∧ (outcome r = Exited 0 <-> Printed JobCancelled ∈ trace r)
  ∧ (∀ code, outcome r = Exited code -> code = 0 ∨ code = 1).
Proof.
  intros r. subst r.
  assert (∀ before m l, forallb keeps_polling before = true ->
            (∀ p s, m ≠ Progress p s) ->
            Printed m ∈ turns job_id before ++ l <-> Printed m ∈ l)
    as Hskip.
  { intros before m l Hb Hm. rewrite elem_of_app. split; [|by right].
    intros [H|H]; [|done].
    destruct (turns_prints _ _ _ Hb H) as (p & s & ->). by destruct (Hm p s). }
  destruct (first_stop script) as [Hk|(before & a & later & -> & Hb & Ha)].
  - rewrite (tracking_waiting _ _ Hk). cbn [outcome trace].
    rewrite !Hskip by done.
    rewrite !elem_of_cons, !elem_of_nil. clear.
    split_and!; [split; [done|intuition discriminate]..|done].
  - rewrite (tracking_keeps_polling _ _ _ Hb), outcome_prepend, trace_prepend.
    rewrite !Hskip by done.
    destruct (tracking_stop job_id a later) as (He & Hs & Hc & Hf).
    destruct (keeps_polling_false a Ha) as [H|[H|[H|H]]];
      [rewrite (He H)|rewrite (Hs H)|rewrite (Hc H)|rewrite (Hf H)];
      cbn [outcome trace];
      rewrite !elem_of_cons, !elem_of_nil; clear;
      (split_and!;
       [split; [try done; intros _; auto 6|try done; intuition discriminate]..
       |intros code [= <-]; auto]).
Qed.

Lemma download_loop_events (world : Collaborators) {S : Type}
    (project_id output_path : string) (outs : Outputs) (s : S) :
  let run :=
    for_each (filter (fun kv => is_Some (snd kv)) outs) (fun kv =>
      let output_type := fst kv in
      match snd kv with
      | Some output_id =>
          ret_ <- call_download_reality_data world output_id output_path
                    project_id ;;
          when (is_error ret_) (
            print (ErrorDownloading output_type (error ret_))) ;;
          print (Downloaded output_type ret_)
      | None => ret tt
      end) s in
  Forall (fun e => download_event e = true ∧ e ≠ Printed DownloadsCompleted)
    (trace run).
Proof.
  induction outs as [|[k [id|]] outs IH]; intros run; subst run.
  - by constructor.
  - rewrite filter_cons_True by (by eexists).
    cbn [for_each fst snd]. cbv zeta in IH.
    rewrite (bind_returned _ _ _ _ _ _ (download_one world project_id
                                          output_path k id s)).
    rewrite trace_prepend. apply Forall_app. split; [|done].
    destruct (is_error _); by repeat constructor.
  - rewrite filter_cons_False by (by intros [? [=]]). apply IH.
Qed.

(** The run of [download_outputs] once the job properties are read. *)
Lemma download_outputs_run (world : Collaborators) {S : Type}
    (project_id job_id output_path : string) (s : S) :
  let properties_ret := get_job_properties world job_id in
  let outs := outputs (job_settings (value properties_ret)) in
  is_error properties_ret = false ->
  ∃ tr : list event,
    download_outputs world project_id job_id output_path s
    = mkRun ([Printed RetrievingOutputsIds; GetJobProperties job_id;
              Printed DownloadingOutputs]
             ++ tr ++ [Printed DownloadsCompleted]) s (Returned tt)
    ∧ downloads tr = omap snd outs
    ∧ Forall (fun e => download_event e = true
                       ∧ e ≠ Printed DownloadsCompleted) tr.
Proof.
  intros properties_ret outs He.
  destruct (download_loop world project_id output_path outs s)
    as (Hd & Ho & Hf & _).
  pose proof (download_loop_events world project_id output_path outs s) as Hev.
  cbv zeta in Hev.
  unfold download_outputs, bind, call_get_job_properties, print, emit.
  cbn [prepend app]. fold properties_ret. rewrite He.
  cbn [when ret prepend app].
  fold outs. set (loop := for_each _ _) in *.
  destruct (loop s) as [tr s' o]. cbn [trace outcome final] in *. subst o s'.
  exists tr. by cbn [prepend app].
Qed.

(** How [download_outputs] ends, whatever the job properties answer. *)
Lemma download_outputs_ends (world : Collaborators) {S : Type}
    (project_id job_id output_path : string) (s : S) :
  let r := download_outputs world project_id job_id output_path s in
  Forall (fun e => download_event e = true) (trace r)
  ∧ (outcome r = Returned tt <-> Printed DownloadsCompleted ∈ trace r)
  ∧ match outcome r with
    | Returned _ => True
    | Exited code => code = 1
    | Waiting => False
    end.
Proof.
  intros r. subst r.
  destruct (is_error (get_job_properties world job_id)) eqn:He.
  - unfold download_outputs, bind, call_get_job_properties, print, emit, exit.
    cbn [prepend app]. rewrite He. cbn [when prepend app trace outcome].
    split_and!; [by repeat constructor| |done].
    rewrite !elem_of_cons, elem_of_nil. clear.
    split; [done|intuition discriminate].
  - destruct (download_outputs_run world project_id job_id output_path s He)
      as (tr & -> & _ & Hev).
    cbn [trace outcome]. split_and!; [| |done].
    + repeat constructor. apply Forall_app. split; [|by repeat constructor].
      eapply Forall_impl; [exact Hev|]. by intros e [? _].
    + split; [|done]. intros _. set_solver.
Qed.

Lemma core_events_app (sts1 sts2 : list action) :
  core_events (sts1 ++ sts2) = core_events sts1 ++ core_events sts2.
Proof. unfold core_events. apply omap_app. Qed.

Lemma core_events_Core (tr : list event) : core_events (map Core tr) = tr.
Proof.
  induction tr as [|e tr IH]; [done|].
  cbn [map]. unfold core_events in *. cbn [omap list_omap]. by rewrite IH.
Qed.

Lemma elem_of_core_events (e : event) (sts : list action) :
  Core e ∈ sts <-> e ∈ core_events sts.
Proof.
  unfold core_events. rewrite list_elem_of_omap. split.
  - intros H. by exists (Core e).
  - intros (a & Ha & Hm). destruct a; try discriminate Hm.
    by injection Hm as ->.
Qed.

Lemma polled_elem (job_id : string) (tr : list event) :
  GetJobProgress job_id ∈ tr -> job_id ∈ polled tr.
Proof.
  induction tr as [|e tr IH]; [by intros ?%elem_of_nil|].
  intros [<-|H]%elem_of_cons.
  - apply list_elem_of_here.
  - destruct e; cbn [polled]; auto using list_elem_of_further.
Qed.

(** The tracking loop asks for no other job than the one it is given. *)
Lemma tracking_polls_its_job (job_id j : string) (script : answers) :
  GetJobProgress j ∈ trace (tracking_job_progress job_id script) ->
  j = job_id.
Proof.
  intros H%polled_elem.
  destruct (tracking_last_turn job_id script)
    as (before & last_turn & Htr & _ & _ & Hp & _).
  rewrite Htr, polled_app, turns_polled in H. cbn [polled] in H.
  rewrite Hp in H.
  apply elem_of_app in H as [H|H].
  - by apply elem_of_replicate in H as [? _].
  - by apply list_elem_of_singleton in H.
Qed.

Lemma download_loop_no_query (world : Collaborators) {S : Type}
    (project_id output_path : string) (outs : Outputs) (s : S) :
  let run :=
    for_each (filter (fun kv => is_Some (snd kv)) outs) (fun kv =>
      let output_type := fst kv in
      match snd kv with
      | Some output_id =>
          ret_ <- call_download_reality_data world output_id output_path
                    project_id ;;
          when (is_error ret_) (
            print (ErrorDownloading output_type (error ret_))) ;;
          print (Downloaded output_type ret_)
      | None => ret tt
      end) s in
  Forall (fun e => ∀ j, e ≠ GetJobProperties j) (trace run).
Proof.
  induction outs as [|[k [id|]] outs IH]; intros run; subst run.
  - by constructor.
  - rewrite filter_cons_True by (by eexists).
    cbn [for_each fst snd]. cbv zeta in IH.
    rewrite (bind_returned _ _ _ _ _ _ (download_one world project_id
                                          output_path k id s)).
    rewrite trace_prepend. apply Forall_app. split; [|done].
    destruct (is_error _); by repeat constructor.
  - rewrite filter_cons_False by (by intros [? [=]]). apply IH.
Qed.

(** [download_outputs] asks for the properties of no other job than the
    one it is given. *)
Lemma download_outputs_queries_its_job (world : Collaborators) {S : Type}
    (project_id job_id output_path j : string) (s : S) :
  GetJobProperties j
  ∈ trace (download_outputs world project_id job_id output_path s) ->
  j = job_id.
Proof.
  pose proof (download_loop_no_query world project_id output_path
                (outputs (job_settings (value (get_job_properties world
                                                 job_id)))) s) as Hq.
  cbv zeta in Hq.
  unfold download_outputs, bind, call_get_job_properties, print, emit, exit.
  cbn [prepend app].
  destruct (is_error (get_job_properties world job_id));
    cbn [when ret prepend app].
  - cbn [trace]. rewrite !elem_of_cons, elem_of_nil.
    intros [H|[H|[H|[]]]]; try discriminate H. by injection H.
  - set (loop := for_each _ _) in *.
    rewrite Forall_forall in Hq.
    destruct (loop s) as [tr s' [[]| |]]; cbn [trace prepend app] in *;
      intros H;
      repeat match goal with
             | H : _ ∈ _ :: _ |- _ => apply elem_of_cons in H as [H|H]
             | H : _ ∈ _ ++ _ |- _ => apply elem_of_app in H as [H|H]
             | H : _ ∈ [] |- _ => by apply elem_of_nil in H
             | H : GetJobProperties _ = _ |- _ =>
                 first [discriminate H | by injection H]
             | H : _ ∈ tr |- _ => by destruct (Hq _ H j)
             end.
Qed.

(** ** The whole script *)

Lemma script_steps_prepend {S A} (sts : list action) (r : Script.Run S A) :
  Script.steps (Script.prepend sts r) = sts ++ Script.steps r.
Proof. by destruct r. Qed.

Lemma script_session_prepend {S A} (sts : list action)
    (r : Script.Run S A) :
  Script.session (Script.prepend sts r) = Script.session r.
Proof. by destruct r. Qed.

Lemma script_result_prepend {S A} (sts : list action) (r : Script.Run S A) :
  Script.result (Script.prepend sts r) = Script.result r.
Proof. by destruct r. Qed.

Lemma lift_run {S T A} (get : S -> T) (set : S -> T -> S) (m : Prog T A)
    (s : S) :
  Script.lift get set m s
  = Script.mk (map Core (trace (m (get s)))) (set s (final (m (get s))))
              (outcome (m (get s))).
Proof. unfold Script.lift. by destruct (m (get s)). Qed.

Section WholeScriptRuns.

Context (platform : Platform).

Lemma create_iTwins_run
    (token_factory : TokenFactory) (iTwin_setting : iTwinSettings)
    (s : Session) :
  let response := api_create_iTwin platform token_factory iTwin_setting in
  create_iTwins platform token_factory iTwin_setting s
  = if is_error response
    then Script.mk [CreateITwin token_factory iTwin_setting;
                    Say (ErrorCreatingITwin (error response))] s (Exited 1)
    else Script.mk [CreateITwin token_factory iTwin_setting] s
                   (Returned (value response)).
Proof.
  intros response. unfold create_iTwins, Script.bind, Script.call.
  fold response. by destruct (is_error response).
Qed.

Lemma create_workspace_run
    (service_cc : ContextCaptureService) (workspace_name project_id : string)
    (s : Session) :
  let ret_ := service_create_workspace platform workspace_name project_id in
  create_workspace platform service_cc workspace_name project_id s
  = if is_error ret_
    then Script.mk [CreateWorkspace workspace_name project_id;
                    Say (ErrorCreatingWorkspace (error ret_))] s (Exited 1)
    else Script.mk [CreateWorkspace workspace_name project_id;
                    Say (WorkspaceCreationResponse ret_)] s
                   (Returned (value ret_)).
Proof.
  intros ret_. unfold create_workspace, Script.bind, Script.call.
  fold ret_. by destruct (is_error ret_).
Qed.

Lemma create_job_run
    (service_cc : ContextCaptureService) (workspace_id job_name : string)
    (settings : CCJobSettings) (s : Session) :
  let created :=
    service_create_job platform FULL settings job_name workspace_id in
  let submitted := service_submit_job platform (value created) in
  create_job platform service_cc workspace_id job_name settings s
  = if is_error created
    then Script.mk [CreateJob FULL settings job_name workspace_id;
                    Say (ErrorInSubmit (error created))] s (Exited 1)
    else if is_error submitted
    then Script.mk [CreateJob FULL settings job_name workspace_id;
                    Say (CreatedJob created);
                    SubmitJob (value created);
                    Say (ErrorInSubmit (error submitted))] s (Exited 1)
    else Script.mk [CreateJob FULL settings job_name workspace_id;
                    Say (CreatedJob created);
                    SubmitJob (value created);
                    Say (JobSubmissionResponse submitted);
                    Say (JobID (value created))] s
                   (Returned (value created)).
Proof.
  intros created submitted. unfold create_job, Script.bind, Script.call.
  fold created. destruct (is_error created); [done|].
  cbn [Script.when Script.ret Script.prepend Script.say app].
  fold submitted. by destruct (is_error submitted).
Qed.

(** X14: [create_job] submits only a job it has created, and the id it
    returns is the id of that job: a job is submitted only if its creation
    succeeded, the function returns exactly when creation and submission
    both succeeded, and otherwise it exits with code 1; a failed
    submission leaves a job that was created and not submitted. *)
Theorem create_job_submits_created_job
    (service_cc : ContextCaptureService) (workspace_id job_name : string)
    (settings : CCJobSettings) (s : Session) :
  let created :=
    service_create_job platform FULL settings job_name workspace_id in
  let submitted := service_submit_job platform (value created) in
  let run := create_job platform service_cc workspace_id job_name settings s in
  head (Script.steps run)
  = Some (CreateJob FULL settings job_name workspace_id)
  ∧ (∀ job_id, SubmitJob job_id ∈ Script.steps run <->
               is_error created = false ∧ job_id = value created)
  ∧ (∀ job_id, Script.result run = Returned job_id <->
               is_error created = false ∧ is_error submitted = false
               ∧ job_id = value created)
  ∧ (Script.result run = Exited 1 <->
     is_error created = true ∨ is_error submitted = true)
  ∧ Script.session run = s.
Proof.
  intros created submitted run. subst run. rewrite create_job_run.
  cbv zeta. fold created submitted.
  destruct (is_error created); [|destruct (is_error submitted)];
    cbn [Script.steps Script.result Script.session head];
    (split_and!; [done| | | |done]).
  - intros j. split; [|by intros [? _]].
    intros H. repeat (apply elem_of_cons in H as [H|H]; [discriminate H|]).
    by apply elem_of_nil in H.
  - intros j. split; [done|by intros [? _]].
  - split; [by left|done].
  - intros j. split; [|intros [_ ->]; set_solver].
    intros H. split; [done|].
    apply elem_of_cons in H as [H|H]; [discriminate H|].
    apply elem_of_cons in H as [H|H]; [discriminate H|].
    apply elem_of_cons in H as [H|H]; [by injection H|].
    apply elem_of_cons in H as [H|H]; [discriminate H|].
    by apply elem_of_nil in H.
  - intros j. split; [done|by intros (_ & ? & _)].
  - split; [by right|done].
  - intros j. split; [|intros [_ ->]; set_solver].
    intros H. split; [done|].
    apply elem_of_cons in H as [H|H]; [discriminate H|].
    apply elem_of_cons in H as [H|H]; [discriminate H|].
    apply elem_of_cons in H as [H|H]; [by injection H|].
    apply elem_of_cons in H as [H|H]; [discriminate H|].
    apply elem_of_cons in H as [H|H]; [discriminate H|].
    by apply elem_of_nil in H.
  - intros j. split; [by intros [= <-]|by intros (_ & _ & ->)].
  - split; [done|by intros [?|?]].
Qed.

Lemma script_bind_run {S A B} (m : Script.t S A) (k : A -> Script.t S B)
    (s : S) :
  Script.bind m k s
  = match Script.result (m s) with
    | Returned a =>
        Script.prepend (Script.steps (m s)) (k a (Script.session (m s)))
    | Exited code =>
        Script.mk (Script.steps (m s)) (Script.session (m s)) (Exited code)
    | Waiting => Script.mk (Script.steps (m s)) (Script.session (m s)) Waiting
    end.
Proof. unfold Script.bind. by destruct (m s) as [? ? [?| |]]. Qed.

Lemma data_transfer_run (token_factory : TokenFactory) (s : Session) :
  data_transfer_with_progress_hook token_factory s
  = Script.mk [SetProgressHook (NewRealityDataTransfer token_factory);
               Say DataTransferInitialized] s
              (Returned (NewRealityDataTransfer token_factory)).
Proof. reflexivity. Qed.

Lemma init_cc_service_run (token_factory : TokenFactory) (s : Session) :
  init_cc_service token_factory s
  = Script.mk [Say ServiceInitialized] s
              (Returned (NewContextCaptureService token_factory)).
Proof. reflexivity. Qed.

(** The run of [main], stage by stage. *)
Lemma main_run
    (config_client_id config_secret : string)
    (new_iTwin_settings : iTwinSettings) (new_outputs : Outputs)
    (s0 : Session) :
  let token_factory := service_token_factory config_client_id config_secret in
  let project_settings := main_project_settings new_iTwin_settings in
  let response := api_create_iTwin platform token_factory project_settings in
  let project_id := value response in
  let U := upload_data (transfer platform) project_id main_image_collections
             main_orientations "Photos" "cc orientations" main_output_path
             (upload_store s0) in
  let workspace :=
    service_create_workspace platform "Reality Modeling workspace"
      project_id in
  let before_upload :=
    [CreateITwin token_factory project_settings;
     SetProgressHook (NewRealityDataTransfer token_factory);
     Say DataTransferInitialized;
     Say ServiceInitialized] in
  let run := main platform config_client_id config_secret new_iTwin_settings
               new_outputs s0 in
  if is_error response then
    run = Script.mk [CreateITwin token_factory project_settings;
                     Say (ErrorCreatingITwin (error response))] s0 (Exited 1)
  else
    match outcome U with
    | Exited code =>
        run = Script.mk (before_upload ++ map Core (trace U))
                (mkSession (final U) (job_answers s0)) (Exited code)
    | Waiting =>
        run = Script.mk (before_upload ++ map Core (trace U))
                (mkSession (final U) (job_answers s0)) Waiting
    | Returned refs =>
        let s1 := mkSession (final U) (job_answers s0) in
        if is_error workspace then
          run = Script.mk
                  (before_upload ++ map Core (trace U)
                   ++ [CreateWorkspace "Reality Modeling workspace"
                         project_id;
                       Say (ErrorCreatingWorkspace (error workspace))])
                  s1 (Exited 1)
        else
          let settings := main_job_settings refs new_outputs in
          let J := create_job platform
                     (NewContextCaptureService token_factory)
                     (value workspace) "Reality Modeling job" settings s1 in
          let before_job :=
            before_upload ++ map Core (trace U)
            ++ [CreateWorkspace "Reality Modeling workspace" project_id;
                Say (WorkspaceCreationResponse workspace);
                Core (Printed SettingsCreated)]
            ++ Script.steps J in
          match Script.result J with
          | Exited code => run = Script.mk before_job s1 (Exited code)
          | Waiting => run = Script.mk before_job s1 Waiting
          | Returned job_id =>
              let T := tracking_job_progress job_id (job_answers s0) in
              let s2 := mkSession (final U) (final T) in
              match outcome T with
              | Exited code =>
                  run = Script.mk (before_job ++ map Core (trace T)) s2
                          (Exited code)
              | Waiting =>
                  run = Script.mk (before_job ++ map Core (trace T)) s2
                          Waiting
              | Returned _ =>
                  let D := download_outputs (transfer platform) project_id
                             job_id main_output_path tt in
                  run = Script.mk
                          (before_job ++ map Core (trace T)
                           ++ map Core (trace D))
                          s2 (outcome D)
              end
          end
    end.
Proof.
  intros token_factory project_settings response project_id U workspace
    before_upload run.
  assert (run = main platform config_client_id config_secret
                  new_iTwin_settings new_outputs s0) as Hrun by reflexivity.
  clearbody run.
  unfold main in Hrun. cbv zeta in Hrun.
  fold main_image_collections main_orientations main_output_path in Hrun.
  change (set_attr "geographic_location" _ _) with project_settings in Hrun.
  change (set_attr "orthophoto_DSM" _ _)
    with (main_job_outputs new_outputs) in Hrun.
  fold token_factory in Hrun.
  rewrite script_bind_run, create_iTwins_run in Hrun. cbv zeta in Hrun.
  fold response in Hrun.
  destruct (is_error response); [exact Hrun|].
  cbn [Script.result Script.steps Script.session] in Hrun.
  fold project_id in Hrun.
  rewrite script_bind_run, data_transfer_run in Hrun.
  cbn [Script.result Script.steps Script.session] in Hrun.
  rewrite script_bind_run, init_cc_service_run in Hrun.
  cbn [Script.result Script.steps Script.session] in Hrun.
  rewrite script_bind_run in Hrun. unfold on_uploads in Hrun.
  rewrite lift_run in Hrun.
  cbn [Script.result Script.steps Script.session upload_store job_answers]
    in Hrun.
  fold U in Hrun.
  destruct (outcome U) as [refs| |];
    [|cbn [Script.prepend app] in Hrun; exact Hrun..].
  cbv zeta.
  rewrite script_bind_run, create_workspace_run in Hrun. cbv zeta in Hrun.
  fold workspace in Hrun.
  destruct (is_error workspace).
  { cbn [Script.result Script.steps Script.session Script.prepend app]
      in Hrun. exact Hrun. }
  cbn [Script.result Script.steps Script.session] in Hrun.
  rewrite script_bind_run in Hrun. unfold on_nothing in Hrun.
  rewrite lift_run in Hrun.
  change (create_job_settings refs main_image_collections main_orientations
            (main_job_outputs new_outputs) MEDIUM tt)
    with (mkRun [Printed SettingsCreated] tt
            (Returned (main_job_settings refs new_outputs))) in Hrun.
  cbn [trace final outcome map Script.result Script.steps Script.session]
    in Hrun.
  rewrite script_bind_run in Hrun.
  set (J := create_job platform _ _ _ _ _) in *.
  assert (Script.session J = mkSession (final U) (job_answers s0)) as HsJ.
  { subst J. rewrite create_job_run. cbv zeta.
    by repeat destruct (is_error _). }
  rewrite HsJ in Hrun.
  destruct (Script.result J) as [job_id| |].
  - rewrite script_bind_run in Hrun. unfold on_answers in Hrun.
    rewrite lift_run in Hrun.
    cbn [Script.result Script.steps Script.session upload_store job_answers]
      in Hrun.
    cbv zeta.
    destruct (outcome (tracking_job_progress job_id (job_answers s0))).
    + rewrite lift_run in Hrun.
      cbn [Script.prepend app] in Hrun. rewrite Hrun; f_equal;
      subst before_upload; cbn [app]; by rewrite <- !app_assoc.
    + cbn [Script.prepend app] in Hrun. rewrite Hrun; f_equal;
      subst before_upload; cbn [app]; by rewrite <- !app_assoc.
    + cbn [Script.prepend app] in Hrun. rewrite Hrun; f_equal;
      subst before_upload; cbn [app]; by rewrite <- !app_assoc.
  - cbn [Script.prepend app] in Hrun. rewrite Hrun; f_equal;
      subst before_upload; cbn [app]; by rewrite <- !app_assoc.
  - cbn [Script.prepend app] in Hrun. rewrite Hrun; f_equal;
      subst before_upload; cbn [app]; by rewrite <- !app_assoc.
Qed.

Lemma class_not_elem (f : event -> bool) (x : event) (tr : list event) :
  Forall (fun e => f e = true) tr -> f x = false -> x ∈ tr <-> False.
Proof.
  intros Hall Hx. split; [|done]. intros Hin.
  rewrite Forall_forall in Hall. specialize (Hall x Hin). congruence.
Qed.

(** X15: the exit status of [main] says what happened: it exits with code
    0 exactly when the job was reported cancelled, every other exit has
    code 1, and it returns exactly when it has printed "Downloads
    Completed". *)
Theorem main_exit_status
    (config_client_id config_secret : string)
    (new_iTwin_settings : iTwinSettings) (new_outputs : Outputs)
    (s0 : Session) :
  let run := main platform config_client_id config_secret new_iTwin_settings
               new_outputs s0 in
  (∀ code, Script.result run = Exited code -> code = 0 ∨ code = 1)
  ∧ (Script.result run = Exited 0
     <-> Core (Printed JobCancelled) ∈ Script.steps run)
  ∧ (Script.result run = Returned tt
     <-> Core (Printed DownloadsCompleted) ∈ Script.steps run).
Proof.
  intros run.
  pose proof (main_run config_client_id config_secret new_iTwin_settings
                new_outputs s0) as H.
  cbv zeta in H. fold run in H. rewrite !elem_of_core_events.
  destruct (is_error _).
  { rewrite H. cbn. rewrite !elem_of_nil. clear.
    split_and!; [intros code [= <-]; auto|split; done..]. }
  set (U := upload_data _ _ _ _ _ _ _ _) in *.
  pose proof (upload_data_events (transfer platform)
                (value (api_create_iTwin platform
                          (service_token_factory config_client_id
                             config_secret)
                          (main_project_settings new_iTwin_settings)))
                main_image_collections main_orientations "Photos"
                "cc orientations" main_output_path (upload_store s0)) as HU.
  pose proof (upload_data_exit_code (transfer platform)
                (value (api_create_iTwin platform
                          (service_token_factory config_client_id
                             config_secret)
                          (main_project_settings new_iTwin_settings)))
                main_image_collections main_orientations "Photos"
                "cc orientations" main_output_path (upload_store s0)) as HUc.
  fold U in HU, HUc.
  pose proof (class_not_elem upload_event (Printed JobCancelled) _ HU
                eq_refl) as HU1.
  pose proof (class_not_elem upload_event (Printed DownloadsCompleted) _ HU
                eq_refl) as HU2.
  destruct (outcome U) as [refs|code|]; [| |done].
  2:{ rewrite H. cbn [Script.steps Script.result].
      rewrite core_events_app, core_events_Core. cbn [core_events omap
        list_omap app]. rewrite HU1, HU2, HUc. clear.
      split_and!; [intros code [= <-]; auto|split; done..]. }
  cbv zeta in H. destruct (is_error _).
  { rewrite H. cbn [Script.steps Script.result].
    rewrite !core_events_app, core_events_Core. cbn [core_events omap
      list_omap app]. rewrite app_nil_r, HU1, HU2. clear.
    split_and!; [intros code [= <-]; auto|split; done..]. }
  rewrite create_job_run in H. cbv zeta in H.
  destruct (is_error _).
  { rewrite H. cbn [Script.steps Script.result].
    rewrite !core_events_app, core_events_Core. cbn [core_events omap
      list_omap app]. rewrite elem_of_app, !elem_of_cons, !elem_of_nil,
      HU1. rewrite elem_of_app, !elem_of_cons, !elem_of_nil, HU2. clear.
    split_and!; [intros code [= <-]; auto|split; intuition discriminate..]. }
  destruct (is_error _).
  { rewrite H. cbn [Script.steps Script.result].
    rewrite !core_events_app, core_events_Core. cbn [core_events omap
      list_omap app]. rewrite elem_of_app, !elem_of_cons, !elem_of_nil,
      HU1. rewrite elem_of_app, !elem_of_cons, !elem_of_nil, HU2. clear.
    split_and!; [intros code [= <-]; auto|split; intuition discriminate..]. }
  cbn [Script.result Script.steps] in H.
  set (T := tracking_job_progress _ _) in *.
  destruct (tracking_ends
              (value (service_create_job platform FULL
                        (main_job_settings refs new_outputs)
                        "Reality Modeling job"
                        (value (service_create_workspace platform
                                  "Reality Modeling workspace"
                                  (value (api_create_iTwin platform
                                            (service_token_factory
                                               config_client_id
                                               config_secret)
                                            (main_project_settings
                                               new_iTwin_settings)))))))
              (job_answers s0)) as (HT1 & HT2 & HT3).
  fold T in HT1, HT2, HT3.
  pose proof (tracking_events
              (value (service_create_job platform FULL
                        (main_job_settings refs new_outputs)
                        "Reality Modeling job"
                        (value (service_create_workspace platform
                                  "Reality Modeling workspace"
                                  (value (api_create_iTwin platform
                                            (service_token_factory
                                               config_client_id
                                               config_secret)
                                            (main_project_settings
                                               new_iTwin_settings)))))))
              (job_answers s0)) as HT.
  fold T in HT.
  pose proof (class_not_elem tracking_event (Printed DownloadsCompleted) _ HT
                eq_refl) as HT4.
  destruct (outcome T) as [[]|code|] eqn:HoT.
  - set (D := download_outputs _ _ _ _ _) in *.
    destruct (download_outputs_ends (transfer platform)
                (value (api_create_iTwin platform
                          (service_token_factory config_client_id
                             config_secret)
                          (main_project_settings new_iTwin_settings)))
                (value (service_create_job platform FULL
                          (main_job_settings refs new_outputs)
                          "Reality Modeling job"
                          (value (service_create_workspace platform
                                    "Reality Modeling workspace"
                                    (value (api_create_iTwin platform
                                              (service_token_factory
                                                 config_client_id
                                                 config_secret)
                                              (main_project_settings
                                                 new_iTwin_settings)))))))
                main_output_path tt) as (HD & HD1 & HD2).
    fold D in HD, HD1, HD2.
    pose proof (class_not_elem download_event (Printed JobCancelled) _ HD
                  eq_refl) as HD3.
    rewrite H. cbn [Script.steps Script.result].
    rewrite !core_events_app, !core_events_Core. cbn [core_events omap
      list_omap app].
    rewrite !elem_of_app, !elem_of_cons, !elem_of_nil, HU1, HU2, HT4, HD3,
      <- HT2, <- HD1.
    clear -HD2. destruct (outcome D) as [[]|code|]; [| |done].
    + split_and!; [done|split; intuition discriminate|split; auto 6].
    + subst code.
      split_and!; [intros c [= <-]; auto|split; intuition discriminate
                  |split; intuition discriminate].
  - rewrite H. cbn [Script.steps Script.result].
    rewrite !core_events_app, !core_events_Core. cbn [core_events omap
      list_omap app].
    rewrite !elem_of_app, !elem_of_cons, !elem_of_nil, HU1, HU2, HT4, <- HT2.
    clear -HT3. split_and!; [intros c [= <-]; auto| |].
    + split; [auto 6|intuition discriminate].
    + split; intuition discriminate.
  - rewrite H. cbn [Script.steps Script.result].
    rewrite !core_events_app, !core_events_Core. cbn [core_events omap
      list_omap app].
    rewrite !elem_of_app, !elem_of_cons, !elem_of_nil, HU1, HU2, HT4, <- HT2.
    clear. split_and!; [done|split; intuition discriminate..].
Qed.

Lemma quiet_lookup (h : list action) (i : nat) (a : action) :
  Forall (fun a => is_collecting a = false) h ->
  h !! i = Some a -> is_collecting a = true -> False.
Proof.
  intros Hall Hi Ha. rewrite Forall_forall in Hall.
  assert (a ∈ h) as Hin by (by eapply list_elem_of_lookup_2).
  specialize (Hall a Hin). congruence.
Qed.

Lemma collecting_after (h t : list action) (x : action) (i : nat)
    (a : action) :
  Forall (fun a => is_collecting a = false) h ->
  x ∈ h ->
  (h ++ t) !! i = Some a -> is_collecting a = true ->
  x ∈ take i (h ++ t).
Proof.
  intros Hall Hx Hi Ha.
  destruct (decide (i < length h)%nat) as [Hlt|Hge].
  - rewrite lookup_app_l in Hi by done.
    destruct (quiet_lookup h i a Hall Hi Ha).
  - rewrite take_app_ge by lia. apply elem_of_app. by left.
Qed.

Lemma quiet_core (f : event -> bool) (tr : list event) :
  (∀ e, f e = true -> is_collecting (Core e) = false) ->
  Forall (fun e => f e = true) tr ->
  Forall (fun a => is_collecting a = false) (map Core tr).
Proof.
  intros Hf Hall. apply Forall_fmap. eapply Forall_impl; [exact Hall|].
  intros e He. by apply Hf.
Qed.

Lemma upload_event_quiet (e : event) :
  upload_event e = true -> is_collecting (Core e) = false.
Proof. by destruct e. Qed.

Lemma tracking_event_quiet (e : event) :
  tracking_event e = true -> is_collecting (Core e) = false.
Proof. by destruct e. Qed.

(** X16: [main] asks for the job properties and attempts downloads only
    after the tracking loop has printed "Job done": before every such
    action of a run there is the line "Job done". *)
Theorem main_collects_after_job_done
    (config_client_id config_secret : string)
    (new_iTwin_settings : iTwinSettings) (new_outputs : Outputs)
    (s0 : Session) (i : nat) (a : action) :
  let run := main platform config_client_id config_secret new_iTwin_settings
               new_outputs s0 in
  Script.steps run !! i = Some a ->
  is_collecting a = true ->
  Core (Printed JobDone) ∈ take i (Script.steps run).
Proof.
  intros run.
  pose proof (main_run config_client_id config_secret new_iTwin_settings
                new_outputs s0) as H.
  cbv zeta in H. fold run in H.
  destruct (is_error _).
  { rewrite H. cbn [Script.steps]. intros Hi Ha. exfalso.
    eapply quiet_lookup; [|exact Hi|exact Ha]. by repeat constructor. }
  set (U := upload_data _ _ _ _ _ _ _ _) in *.
  assert (Forall (fun a => is_collecting a = false) (map Core (trace U)))
    as HU.
  { apply (quiet_core upload_event); [apply upload_event_quiet|].
    apply upload_data_events. }
  assert (∀ sts, Forall (fun a => is_collecting a = false) sts ->
            Script.steps run = sts ->
            Script.steps run !! i = Some a -> is_collecting a = true ->
            Core (Printed JobDone) ∈ take i (Script.steps run)) as Hquiet.
  { intros sts Hall -> Hi Ha. destruct (quiet_lookup _ _ _ Hall Hi Ha). }
  destruct (outcome U) as [refs|code|].
  2,3: refine (Hquiet _ _ ltac:(by rewrite H));
       repeat (apply Forall_app; split); try done; by repeat constructor.
  cbv zeta in H. destruct (is_error _).
  { refine (Hquiet _ _ ltac:(by rewrite H)).
    repeat (apply Forall_app; split); try done; by repeat constructor. }
  rewrite create_job_run in H. cbv zeta in H.
  destruct (is_error _).
  { refine (Hquiet _ _ ltac:(by rewrite H)).
    repeat (apply Forall_app; split); try done; by repeat constructor. }
  destruct (is_error _).
  { refine (Hquiet _ _ ltac:(by rewrite H)).
    repeat (apply Forall_app; split); try done; by repeat constructor. }
  cbn [Script.result Script.steps] in H.
  set (T := tracking_job_progress _ _) in *.
  assert (Forall (fun a => is_collecting a = false) (map Core (trace T)))
    as HT.
  { apply (quiet_core tracking_event); [apply tracking_event_quiet|].
    apply tracking_events. }
  destruct (outcome T) as [[]|code|] eqn:HoT.
  2,3: refine (Hquiet _ _ ltac:(by rewrite H));
       repeat (apply Forall_app; split); try done; by repeat constructor.
  rewrite H. cbn [Script.steps]. rewrite app_assoc.
  apply collecting_after.
  - repeat (apply Forall_app; split); try done; by repeat constructor.
  - apply elem_of_app. right. apply list_elem_of_fmap_2.
    by apply tracking_ends.
Qed.

Lemma not_core_elem (a : action) (tr : list event) :
  (∀ e, a ≠ Core e) -> a ∈ map Core tr <-> False.
Proof.
  intros Ha. split; [|done].
  intros (e & -> & _)%list_elem_of_fmap. by destruct (Ha e).
Qed.

(** X17: whenever [main] asks the service to create a job, the project
    and the workspace have been created, [upload_data] has returned a table
    that knows both resources, and the job asked for is a FULL job named
    "Reality Modeling job" in that workspace, whose inputs are the two
    cloud ids of that table, whose outputs are the four outputs set by
    [main], and whose quality is MEDIUM. *)
Theorem main_job_request
    (config_client_id config_secret : string)
    (new_iTwin_settings : iTwinSettings) (new_outputs : Outputs)
    (s0 : Session)
    (ty : CCJobType) (settings : CCJobSettings) (name workspace_id : string) :
  let token_factory := service_token_factory config_client_id config_secret in
  let response :=
    api_create_iTwin platform token_factory
      (main_project_settings new_iTwin_settings) in
  let U := upload_data (transfer platform) (value response)
             main_image_collections main_orientations "Photos"
             "cc orientations" main_output_path (upload_store s0) in
  let workspace :=
    service_create_workspace platform "Reality Modeling workspace"
      (value response) in
  let run := main platform config_client_id config_secret new_iTwin_settings
               new_outputs s0 in
  CreateJob ty settings name workspace_id ∈ Script.steps run ->
  ty = FULL
  ∧ name = "Reality Modeling job"
  ∧ is_error response = false
  ∧ is_error workspace = false
  ∧ workspace_id = value workspace
  ∧ ∃ (refs : table) (id_imgs id_ori : string),
      outcome U = Returned refs
      ∧ refs !! main_image_collections = Some id_imgs
      ∧ refs !! main_orientations = Some id_ori
      ∧ settings
        = mkCCJobSettings [id_imgs; id_ori] (main_job_outputs new_outputs)
            MEDIUM.
Proof.
  intros token_factory response U workspace run Hin.
  pose proof (main_run config_client_id config_secret new_iTwin_settings
                new_outputs s0) as H.
  cbv zeta in H. fold token_factory response U workspace run in H.
  assert (∀ tr, CreateJob ty settings name workspace_id ∈ map Core tr
                <-> False) as Hno.
  { intros tr. by apply not_core_elem. }
  destruct (is_error response) eqn:E1.
  { rewrite H in Hin. cbn [Script.steps] in Hin.
    rewrite !elem_of_cons, elem_of_nil in Hin.
    exfalso. intuition discriminate. }
  destruct (outcome U) as [refs|code|] eqn:HoU.
  2,3: rewrite H in Hin; cbn [Script.steps] in Hin;
       rewrite elem_of_app, Hno, !elem_of_cons, elem_of_nil in Hin;
       exfalso; intuition discriminate.
  cbv zeta in H.
  destruct (is_error workspace) eqn:E2.
  { rewrite H in Hin. cbn [Script.steps] in Hin.
    rewrite !elem_of_app, Hno, !elem_of_cons, elem_of_nil in Hin.
    exfalso. intuition discriminate. }
  assert (CreateJob ty settings name workspace_id
          = CreateJob FULL (main_job_settings refs new_outputs)
              "Reality Modeling job" (value workspace)) as Heq.
  { rewrite create_job_run in H. cbv zeta in H.
    repeat destruct (is_error (service_create_job _ _ _ _ _)) in H;
      repeat destruct (is_error (service_submit_job _ _)) in H;
      cbn [Script.result Script.steps] in H;
      repeat destruct (outcome (tracking_job_progress _ _)) in H;
      rewrite H in Hin; cbn [Script.steps] in Hin;
      rewrite !elem_of_app, !Hno, !elem_of_cons, !elem_of_nil in Hin;
      intuition discriminate. }
  injection Heq as -> -> -> ->.
  split_and!; [done..|].
  destruct (upload_data_returned (transfer platform) (value response)
              main_image_collections main_orientations "Photos"
              "cc orientations" main_output_path (upload_store s0) refs HoU)
    as (_ & [id_imgs Hi] & [id_ori Ho] & _).
  exists refs, id_imgs, id_ori. split_and!; [done..|].
  unfold main_job_settings, ReferenceTable.get_cloud_id_from_local_path.
  by rewrite Hi, Ho.
Qed.

Lemma class_downloads (f : event -> bool) (tr : list event) :
  (∀ e, f e = true -> downloads [e] = []) ->
  Forall (fun e => f e = true) tr -> downloads tr = [].
Proof.
  intros Hf. induction 1 as [|e tr He _ IH]; [done|].
  change (e :: tr) with ([e] ++ tr). by rewrite downloads_app, (Hf e He).
Qed.

Lemma class_polled (f : event -> bool) (tr : list event) :
  (∀ e, f e = true -> polled [e] = []) ->
  Forall (fun e => f e = true) tr -> polled tr = [].
Proof.
  intros Hf. induction 1 as [|e tr He _ IH]; [done|].
  change (e :: tr) with ([e] ++ tr). by rewrite polled_app, (Hf e He).
Qed.

(** X18: when every call succeeds and the service reports a success state
    after answers that keep the loop polling, [main] returns: the service
    has been asked once per answer up to the success, always for the job
    that was created, the later answers are never asked for, and a
    download has been attempted for exactly the outputs of the job
    properties that have an id. *)
Theorem main_succeeds
    (config_client_id config_secret : string)
    (new_iTwin_settings : iTwinSettings) (new_outputs : Outputs)
    (s0 : Session) (refs : table)
    (running : answers) (a : ReturnValue JobProgress) (later : answers) :
  let token_factory := service_token_factory config_client_id config_secret in
  let response :=
    api_create_iTwin platform token_factory
      (main_project_settings new_iTwin_settings) in
  let U := upload_data (transfer platform) (value response)
             main_image_collections main_orientations "Photos"
             "cc orientations" main_output_path (upload_store s0) in
  let workspace :=
    service_create_workspace platform "Reality Modeling workspace"
      (value response) in
  let created :=
    service_create_job platform FULL (main_job_settings refs new_outputs)
      "Reality Modeling job" (value workspace) in
  let submitted := service_submit_job platform (value created) in
  let properties := get_job_properties (transfer platform) (value created) in
  let run := main platform config_client_id config_secret new_iTwin_settings
               new_outputs s0 in
  is_error response = false ->
  outcome U = Returned refs ->
  is_error workspace = false ->
  is_error created = false ->
  is_error submitted = false ->
  job_answers s0 = running ++ a :: later ->
  forallb keeps_polling running = true ->
  is_success a = true ->
  is_error properties = false ->
  Script.result run = Returned tt
  ∧ Script.session run = mkSession (final U) later
  ∧ polled (core_events (Script.steps run))
    = replicate (S (length running)) (value created)
  ∧ downloads (core_events (Script.steps run))
    = omap snd (outputs (job_settings (value properties))).
Proof.
  intros token_factory response U workspace created submitted properties run
    E1 HoU E2 E3 E4 Hs0 Hk Ha E5.
  pose proof (main_run config_client_id config_secret new_iTwin_settings
                new_outputs s0) as H.
  cbv zeta in H. fold token_factory response U workspace run in H.
  rewrite E1, HoU, E2 in H. rewrite create_job_run in H. cbv zeta in H.
  fold created submitted in H. rewrite E3, E4 in H.
  cbn [Script.result Script.steps] in H. fold created in H.
  rewrite Hs0, (tracking_keeps_polling _ _ _ Hk) in H.
  destruct (tracking_stop (value created) a later) as (_ & HT & _).
  rewrite (HT Ha) in H. cbn [prepend outcome final trace] in H.
  destruct (download_outputs_run (transfer platform) (value response)
              (value created) main_output_path tt E5)
    as (tr & HD & Hdl & Hev).
  fold properties in Hdl. rewrite HD in H. cbn [trace outcome] in H.
  assert (downloads (trace U) = []) as HUd.
  { apply (class_downloads upload_event); [by intros []|].
    apply upload_data_events. }
  assert (polled (trace U) = []) as HUp.
  { apply (class_polled upload_event); [by intros []|].
    apply upload_data_events. }
  assert (polled tr = []) as HDp.
  { apply (class_polled download_event); [by intros []|].
    eapply Forall_impl; [exact Hev|]. by intros e [? _]. }
  assert (downloads (turns (value created) running) = []) as HTd.
  { pose proof (tracking_events (value created) running) as Hall.
    rewrite (tracking_waiting _ _ Hk) in Hall. cbn [trace] in Hall.
    apply Forall_app in Hall as [Hall _].
    by apply (class_downloads tracking_event); [intros []|]. }
  rewrite H. cbn [Script.result Script.session Script.steps].
  rewrite !core_events_app, !core_events_Core.
  cbn [core_events omap list_omap app].
  rewrite !polled_app, !downloads_app, HUd, HUp, turns_polled, HTd.
  cbn [polled downloads app]. rewrite !polled_app, !downloads_app, HDp, Hdl.
  cbn [polled downloads app]. rewrite !app_nil_r.
  split_and!; [done..| |done].
  replace (S (length running)) with (length running + 1)%nat by lia.
  by rewrite replicate_add.
Qed.

(** Finds a step of the script in a list written with [::], [++] and the
    events of a part of the first layer. *)
Ltac find_step :=
  lazymatch goal with
  | |- _ ∈ _ :: _ =>
      first [apply list_elem_of_here
            |apply list_elem_of_further; find_step]
  | |- _ ∈ (_ ++ _) ++ _ => rewrite <- app_assoc; find_step
  | |- _ ∈ (_ :: _) ++ _ => cbn [app]; find_step
  | |- _ ∈ map Core _ ++ _ => apply elem_of_app; right; find_step
  end.

(** X19: [main] asks for the progress and for the properties of no other
    job than the one it has created and submitted with success. *)
Theorem main_follows_submitted_job
    (config_client_id config_secret : string)
    (new_iTwin_settings : iTwinSettings) (new_outputs : Outputs)
    (s0 : Session) (j : string) :
  let run := main platform config_client_id config_secret new_iTwin_settings
               new_outputs s0 in
  Core (GetJobProgress j) ∈ Script.steps run
  ∨ Core (GetJobProperties j) ∈ Script.steps run ->
  SubmitJob j ∈ Script.steps run
  ∧ is_error (service_submit_job platform j) = false
  ∧ ∃ (settings : CCJobSettings) (name workspace_id : string),
      CreateJob FULL settings name workspace_id ∈ Script.steps run
      ∧ j = value (service_create_job platform FULL settings name
                     workspace_id).
Proof.
  intros run Hin.
  pose proof (main_run config_client_id config_secret new_iTwin_settings
                new_outputs s0) as H.
  cbv zeta in H. fold run in H.
  rewrite !elem_of_core_events in Hin.
  destruct (is_error _).
  { rewrite H in Hin. cbn in Hin. rewrite !elem_of_nil in Hin. tauto. }
  set (U := upload_data _ _ _ _ _ _ _ _) in *.
  assert (∀ e, upload_event e = false -> e ∈ trace U <-> False) as HU.
  { intros e He. apply (class_not_elem upload_event); [|done].
    apply upload_data_events. }
  destruct (outcome U) as [refs|code|].
  2,3: rewrite H in Hin; cbn [Script.steps] in Hin;
       rewrite core_events_app, core_events_Core in Hin;
       cbn [core_events omap list_omap app] in Hin;
       rewrite !HU in Hin by done; tauto.
  cbv zeta in H. destruct (is_error _).
  { rewrite H in Hin. cbn [Script.steps] in Hin.
    rewrite !core_events_app, core_events_Core in Hin.
    cbn [core_events omap list_omap app] in Hin.
    rewrite app_nil_r, !HU in Hin by done. tauto. }
  rewrite create_job_run in H. cbv zeta in H.
  destruct (is_error _).
  { rewrite H in Hin. cbn [Script.steps] in Hin.
    rewrite !core_events_app, core_events_Core in Hin.
    cbn [core_events omap list_omap app] in Hin.
    rewrite !elem_of_app, !elem_of_cons, !elem_of_nil, !HU in Hin by done.
    exfalso. intuition discriminate. }
  destruct (is_error (service_submit_job _ _)) eqn:E4.
  { rewrite H in Hin. cbn [Script.steps] in Hin.
    rewrite !core_events_app, core_events_Core in Hin.
    cbn [core_events omap list_omap app] in Hin.
    rewrite !elem_of_app, !elem_of_cons, !elem_of_nil, !HU in Hin by done.
    exfalso. intuition discriminate. }
  cbn [Script.result Script.steps] in H.
  set (job_id := value (service_create_job _ _ _ _ _)) in *.
  set (T := tracking_job_progress _ _) in *.
  assert (∀ e, tracking_event e = false -> e ∈ trace T <-> False) as HT.
  { intros e He. apply (class_not_elem tracking_event); [|done].
    apply tracking_events. }
  assert (∀ project_id e,
            download_event e = false ->
            e ∈ trace (download_outputs (transfer platform) project_id job_id
                         main_output_path ()) <-> False) as HD.
  { intros project_id e He. apply (class_not_elem download_event); [|done].
    apply download_outputs_ends. }
  assert (j = job_id) as ->.
  { destruct (outcome T) as [[]|code|];
      rewrite H in Hin; cbn [Script.steps] in Hin;
      rewrite !core_events_app, !core_events_Core in Hin;
      cbn [core_events omap list_omap app] in Hin;
      rewrite ?elem_of_app, ?elem_of_cons, ?elem_of_nil in Hin;
      rewrite !HU in Hin by done;
      rewrite (HT (GetJobProperties j)) in Hin by done;
      rewrite ?(HD _ (GetJobProgress j)) in Hin by done;
      repeat match goal with
             | H' : _ ∨ _ |- _ => destruct H' as [H'|H']
             | H' : False |- _ => destruct H'
             | H' : GetJobProgress _ = _ |- _ => discriminate H'
             | H' : GetJobProperties _ = _ |- _ => discriminate H'
             | H' : GetJobProgress _ ∈ trace T |- _ =>
                 by eapply tracking_polls_its_job
             | H' : GetJobProperties _ ∈ trace _ |- _ =>
                 by eapply download_outputs_queries_its_job
             end. }
  destruct (outcome T) as [[]|code|]; rewrite H; cbn [Script.steps];
    (split_and!; [|done|eexists _, _, _; split; [|reflexivity]]);
    find_step.
Qed.

End WholeScriptRuns.

(** ** The whole script on the sample platform *)

Lemma main_collects_after_job_done_witness :
  let run := main sample_platform "id" "secret" [] [] sample_session in
  Core (Printed JobDone) ∈ take 32 (Script.steps run).
Proof.
  apply (main_collects_after_job_done sample_platform "id" "secret" [] []
           sample_session 32
           (Core (DownloadRealityData "id1" main_output_path "project-1")));
    reflexivity.
Defined.

Lemma main_job_request_witness :
  FULL = FULL
  ∧ "Reality Modeling job" = "Reality Modeling job"
  ∧ is_error (succeed "project-1") = false
  ∧ is_error (succeed "workspace-1") = false
  ∧ "workspace-1" = "workspace-1"
  ∧ ∃ (refs : table) (id_imgs id_ori : string),
      outcome (upload_data world_with_references "project-1"
                 main_image_collections main_orientations "Photos"
                 "cc orientations" main_output_path fresh)
      = Returned refs
      ∧ refs !! main_image_collections = Some id_imgs
      ∧ refs !! main_orientations = Some id_ori
      ∧ mkCCJobSettings ["cloud-new"; "cloud-ori"] (main_job_outputs [])
          MEDIUM
        = mkCCJobSettings [id_imgs; id_ori] (main_job_outputs []) MEDIUM.
Proof.
  apply (main_job_request sample_platform "id" "secret" [] [] sample_session
           FULL
           (mkCCJobSettings ["cloud-new"; "cloud-ori"] (main_job_outputs [])
              MEDIUM)
           "Reality Modeling job" "workspace-1").
  vm_compute. do 19 apply list_elem_of_further. apply list_elem_of_here.
Defined.

Lemma main_succeeds_witness :
  let run := main sample_platform "id" "secret" [] [] sample_session in
  Script.result run = Returned tt
  ∧ Script.session run
    = mkSession (mkStore sample_references 2) []
  ∧ polled (core_events (Script.steps run)) = ["job-1"; "job-1"]
  ∧ downloads (core_events (Script.steps run)) = ["id1"; "id3"].
Proof.
  assert (final (upload_data world_with_references "project-1"
                   main_image_collections main_orientations "Photos"
                   "cc orientations" main_output_path fresh)
          = mkStore sample_references 2) as HF
    by (vm_compute; reflexivity).
  rewrite <- HF.
  apply (main_succeeds sample_platform "id" "secret" [] [] sample_session
           sample_references [snapshot ACTIVE 10 "AT"]
           (snapshot Over 100 "Done") []); reflexivity.
Defined.

Lemma main_follows_submitted_job_witness :
  let run := main sample_platform "id" "secret" [] [] sample_session in
  SubmitJob "job-1" ∈ Script.steps run
  ∧ is_error (service_submit_job sample_platform "job-1") = false
  ∧ ∃ (settings : CCJobSettings) (name workspace_id : string),
      CreateJob FULL settings name workspace_id ∈ Script.steps run
      ∧ "job-1" = value (service_create_job sample_platform FULL settings
                           name workspace_id).
Proof.
  apply (main_follows_submitted_job sample_platform "id" "secret" [] []
           sample_session "job-1").
  left. vm_compute. do 24 apply list_elem_of_further.
  apply list_elem_of_here.
Defined.
